(** * XLA compiler benchmarks: log parsing and metrics

    A shallow embedding of [comparative_benchmark/xla_compiler/run_benchmarks.py]:
    the regular expressions that pick timings out of the log of the external
    HLO runner, the timestamp arithmetic, the per-device parsers, the summary
    statistics and the batch loop of [main].

    Modelling conventions.
    - Python [bytes] and [str] are both [string] (a list of 8-bit characters);
      the log vocabulary is ASCII.
    - A Python [float] is an exact rational kept in lowest terms ([Q] with
      [Qred] after every operation): rounding is not modelled.  The single
      irrational operation, [math.sqrt] inside [statistics.stdev], is kept
      symbolic as the square root of its radicand ([VSqrt]).
    - A raised exception is the [Raise] branch of [result]; [print] to the
      console is not modelled.
    - The external runner is its captured output: the text handed to the
      parsers. *)

From Stdlib Require Import String Ascii List Bool Arith ZArith QArith Qreduction Lia Lqa.
Import ListNotations.

(* ================================================================== *)
(** ** Exceptions *)

Inductive exception : Type :=
| AssertionError
| ValueError
| KeyError
| StatisticsError.

Inductive result (A : Type) : Type :=
| Ok (a : A)
| Raise (e : exception).

Arguments Ok {A} a.
Arguments Raise {A} e.

Definition bind {A B : Type} (c : result A) (k : A -> result B) : result B :=
  match c with
  | Ok a => k a
  | Raise e => Raise e
  end.

Notation "x <- c ;; k" := (bind c (fun x => k))
  (at level 61, c at next level, right associativity).

(** The truth value of a list: whether it is empty. *)
Definition is_nil {A : Type} (l : list A) : bool :=
  match l with [] => true | _ => false end.

(** Python's [assert cond]. *)
Definition assert_ (cond : bool) : result unit :=
  if cond then Ok tt else Raise AssertionError.

(** A list comprehension whose body may raise: the first exception, in
    iteration order, ends it. *)
Fixpoint mapM {A B : Type} (f : A -> result B) (l : list A) : result (list B) :=
  match l with
  | [] => Ok []
  | a :: l' => b <- f a ;; bs <- mapM f l' ;; Ok (b :: bs)
  end.

(* ================================================================== *)
(** ** Regular expressions: the fragment of Python's [re] the script uses

    A backtracking matcher: [exec r st] lists the states reachable by
    matching [r] from [st], in the order in which Python's engine tries them
    (greedy repetition first, left alternative first).  The head of the list
    is the match [re] reports. *)

Module Re.

Inductive regex : Type :=
| Lit (s : string)              (* literal text *)
| Set_ (p : ascii -> bool)      (* one character of a class: [.], [\d], [[A-Za-z]] *)
| Cat (r1 r2 : regex)           (* r1 r2 *)
| Alt (r1 r2 : regex)           (* r1|r2 *)
| Star (r : regex)              (* r*, greedy *)
| Group (r : regex)             (* (r), capturing *)
| Bol.                          (* ^ without MULTILINE: start of the text *)

Definition Plus (r : regex) : regex := Cat r (Star r).
Definition Opt (r : regex) : regex := Alt r (Lit "").

Fixpoint Rep (n : nat) (r : regex) : regex :=
  match n with
  | O => Lit ""
  | S O => r
  | S n' => Cat r (Rep n' r)
  end.

Definition newline : ascii := ascii_of_nat 10.

(** [.] : any character but a newline (no DOTALL flag). *)
Definition any : regex := Set_ (fun c => negb (Ascii.eqb c newline)).

Definition is_digit (c : ascii) : bool :=
  let n := nat_of_ascii c in (48 <=? n) && (n <=? 57).

Definition is_alpha (c : ascii) : bool :=
  let n := nat_of_ascii c in
  ((65 <=? n) && (n <=? 90)) || ((97 <=? n) && (n <=? 122)).

(** [\d] *)
Definition digit : regex := Set_ is_digit.

(** [[A-Za-z]] *)
Definition alpha : regex := Set_ is_alpha.

(** A matcher state: the offset reached in the text, the text not yet
    consumed, and the groups captured so far, in order. *)
Record state : Type := State {
  pos : N;
  rest : string;
  caps : list string
}.

Fixpoint strip_prefix (p s : string) : option string :=
  match p with
  | EmptyString => Some s
  | String a p' =>
      match s with
      | EmptyString => None
      | String b s' => if Ascii.eqb a b then strip_prefix p' s' else None
      end
  end.

(** Greedy repetition of [step], in front of the alternatives [acc]: what
    one more round leads to comes first, stopping at [st] comes last.  A
    round that consumes nothing is not repeated; [fuel] bounds the rounds by
    the length of the text that is left. *)
Fixpoint star (step : state -> list state) (fuel : nat) (st : state)
    (acc : list state) : list state :=
  match fuel with
  | O => st :: acc
  | S fuel' =>
      fold_right (star step fuel') (st :: acc)
                 (filter (fun st' => (pos st <? pos st')%N) (step st))
  end.

Fixpoint exec (r : regex) (st : state) : list state :=
  match r with
  | Lit s =>
      match strip_prefix s (rest st) with
      | Some rest' => [State (pos st + N.of_nat (String.length s)) rest' (caps st)]
      | None => []
      end
  | Set_ p =>
      match rest st with
      | String c rest' => if p c then [State (N.succ (pos st)) rest' (caps st)] else []
      | EmptyString => []
      end
  | Cat r1 r2 => flat_map (exec r2) (exec r1 st)
  | Alt r1 r2 => exec r1 st ++ exec r2 st
  | Star r' => star (exec r') (String.length (rest st)) st []
  | Group r' =>
      map (fun st' =>
             State (pos st') (rest st')
                   (caps st' ++ [substring 0 (N.to_nat (pos st' - pos st)) (rest st)]))
          (exec r' st)
  | Bol => if (pos st =? 0)%N then [st] else []
  end.

(** A match object: [group 0] and [groups ()]. *)
Record match_obj : Type := Match {
  m_start : N;
  m_end : N;
  group0 : string;
  groups : list string
}.

(** The match of [r] that starts exactly at offset [p], where [s] is the
    text from [p] on. *)
Definition match_at (r : regex) (p : N) (s : string) : option match_obj :=
  match exec r (State p s []) with
  | st :: _ =>
      Some (Match p (pos st) (substring 0 (N.to_nat (pos st - p)) s) (caps st))
  | [] => None
  end.

(** [pattern.search]: the leftmost start that matches. *)
Fixpoint search_from (r : regex) (p : N) (s : string) : option match_obj :=
  match match_at r p s with
  | Some m => Some m
  | None =>
      match s with
      | EmptyString => None
      | String _ s' => search_from r (N.succ p) s'
      end
  end.

Definition search (r : regex) (s : string) : option match_obj :=
  search_from r 0 s.

(** [pattern.finditer]: the matches from left to right, none overlapping.
    [skip] counts the characters still inside the previous match. *)
Fixpoint finditer_from (r : regex) (p : N) (skip : nat) (s : string)
  : list match_obj :=
  match skip with
  | S skip' =>
      match s with
      | EmptyString => []
      | String _ s' => finditer_from r (N.succ p) skip' s'
      end
  | O =>
      match match_at r p s with
      | Some m =>
          m :: match s with
               | EmptyString => []
               | String _ s' =>
                   finditer_from r (N.succ p) (N.to_nat (m_end m - p) - 1) s'
               end
      | None =>
          match s with
          | EmptyString => []
          | String _ s' => finditer_from r (N.succ p) 0 s'
          end
      end
  end.

Definition finditer (r : regex) (s : string) : list match_obj :=
  finditer_from r 0 0 s.

(** [pattern.findall] for a pattern without a group: the matched texts. *)
Definition findall (r : regex) (s : string) : list string :=
  map group0 (finditer r s).

(** [pattern.findall] for a pattern with one group: the texts of the group. *)
Definition findall1 (r : regex) (s : string) : list string :=
  map (fun m => hd EmptyString (groups m)) (finditer r s).

End Re.

(* ================================================================== *)
(** ** Numbers *)

(** Python's [float]: an exact rational in lowest terms. *)
Definition float : Type := Q.

Definition fadd (x y : float) : float := Qred (x + y).
Definition fsub (x y : float) : float := Qred (x - y).
Definition fmul (x y : float) : float := Qred (x * y).
Definition fdiv (x y : float) : float := Qred (x / y).

(** [x < y] *)
Definition fltb (x y : float) : bool := negb (Qle_bool y x).

(** An [int] used where a [float] is expected. *)
Definition of_int (z : Z) : float := inject_Z z.

(** [10 ** e] for an integer [e]. *)
Definition pow10 (e : Z) : float :=
  match e with
  | Z0 => 1
  | Zpos p => inject_Z (Z.pow_pos 10 p)
  | Zneg p => Qred (/ inject_Z (Z.pow_pos 10 p))
  end.

Definition digit_value (c : ascii) : Z := Z.of_nat (nat_of_ascii c - 48).

(** The number a run of decimal digits writes, most significant first. *)
Fixpoint digits_value (acc : Z) (s : string) : Z :=
  match s with
  | EmptyString => acc
  | String c s' => digits_value (10 * acc + digit_value c) s'
  end.

(** The longest prefix whose characters satisfy [p], and what follows it. *)
Fixpoint span (p : ascii -> bool) (s : string) : string * string :=
  match s with
  | EmptyString => (EmptyString, EmptyString)
  | String c s' =>
      if p c then let (a, b) := span p s' in (String c a, b)
      else (EmptyString, s)
  end.

Definition is_space (c : ascii) : bool :=
  let n := nat_of_ascii c in
  ((9 <=? n) && (n <=? 13)) || ((28 <=? n) && (n <=? 32)).

Fixpoint lstrip (s : string) : string :=
  match s with
  | String c s' => if is_space c then lstrip s' else s
  | EmptyString => EmptyString
  end.

Fixpoint rev_string (acc s : string) : string :=
  match s with
  | EmptyString => acc
  | String c s' => rev_string (String c acc) s'
  end.

(** [s.strip()] *)
Definition strip (s : string) : string :=
  rev_string EmptyString (lstrip (rev_string EmptyString (lstrip s))).

(** An optional sign: whether it is a minus, and what follows it. *)
Definition sign (s : string) : bool * string :=
  match s with
  | String "-" s' => (true, s')
  | String "+" s' => (false, s')
  | _ => (false, s)
  end.

Definition is_empty (s : string) : bool :=
  match s with EmptyString => true | _ => false end.

(** The builtin [int(s)] on a decimal numeral: surrounding blanks, a sign
    and digits.  (Digit-group underscores are outside the model.) *)
Definition int (s : string) : result Z :=
  let (neg, s1) := sign (strip s) in
  let (ds, s2) := span Re.is_digit s1 in
  if is_empty ds || negb (is_empty s2) then Raise ValueError
  else Ok (if neg then - digits_value 0 ds else digits_value 0 ds)%Z.

(** The exponent part of a decimal float literal: [e] or [E], a sign and
    digits; nothing for the empty text. *)
Definition exponent (s : string) : result Z :=
  match s with
  | EmptyString => Ok 0%Z
  | String c s' =>
      if Ascii.eqb c "e" || Ascii.eqb c "E" then
        let (neg, s1) := sign s' in
        let (ds, s2) := span Re.is_digit s1 in
        if is_empty ds || negb (is_empty s2) then Raise ValueError
        else Ok (if neg then - digits_value 0 ds else digits_value 0 ds)%Z
      else Raise ValueError
  end.

(** The builtin [float(s)] on a decimal literal: surrounding blanks, a sign,
    digits with an optional fraction ([12], [12.], [12.5], [.5]) and an
    optional exponent; anything else raises [ValueError].  ([inf], [nan]
    and digit-group underscores are outside the model.) *)
Definition float_of_string (s : string) : result float :=
  let (neg, s1) := sign (strip s) in
  let (ip, s2) := span Re.is_digit s1 in
  let (fp, s3) :=
    match s2 with
    | String "." t => span Re.is_digit t
    | _ => (EmptyString, s2)
    end in
  if is_empty ip && is_empty fp then Raise ValueError
  else
    e <- exponent s3 ;;
    let m := digits_value (digits_value 0 ip) fp in
    let v := fmul (of_int m) (pow10 (e - Z.of_nat (String.length fp))) in
    Ok (if neg then Qred (- v) else v).

(** The builtin [sum]: from the integer 0, left to right. *)
Definition sum (l : list float) : float := fold_left fadd l 0.

(* ================================================================== *)
(** ** Values and dictionaries *)

(** What a metrics dictionary holds: [None], an [int], a [float], or the
    square root [statistics.stdev] returns, kept as its radicand. *)
Inductive value : Type :=
| VNone
| VInt (z : Z)
| VFloat (x : float)
| VSqrt (radicand : float).

(** A [dict] with string keys, in insertion order. *)
Definition dict : Type := list (string * value).

Fixpoint get (k : string) (d : dict) : option value :=
  match d with
  | [] => None
  | (k', v) :: d' => if String.eqb k k' then Some v else get k d'
  end.

(** [min(l, default=None)]: the first least element. *)
Definition min_default (l : list float) : value :=
  match l with
  | [] => VNone
  | x :: l' => VFloat (fold_left (fun m y => if fltb y m then y else m) l' x)
  end.

(** [max(l, default=None)]: the first greatest element. *)
Definition max_default (l : list float) : value :=
  match l with
  | [] => VNone
  | x :: l' => VFloat (fold_left (fun m y => if fltb m y then y else m) l' x)
  end.

(* ================================================================== *)
(** ** Python's [statistics] module, as its documentation describes it *)

Module statistics.

Fixpoint insert (x : float) (l : list float) : list float :=
  match l with
  | [] => [x]
  | y :: l' => if fltb x y then x :: l else y :: insert x l'
  end.

(** [sorted(data)], stable. *)
Fixpoint sorted (l : list float) : list float :=
  match l with
  | [] => []
  | x :: l' => insert x (sorted l')
  end.

(** [mean(data)]: raises [StatisticsError] on no data. *)
Definition mean (data : list float) : result float :=
  match data with
  | [] => Raise StatisticsError
  | _ => Ok (fdiv (sum data) (of_int (Z.of_nat (List.length data))))
  end.

(** [median(data)]: the middle value, or the mean of the two middle values;
    raises [StatisticsError] on no data. *)
Definition median (data : list float) : result float :=
  let data := sorted data in
  let n := List.length data in
  if (n =? 0)%nat then Raise StatisticsError
  else if Nat.odd n then Ok (nth (n / 2)%nat data 0)
  else
    let i := (n / 2)%nat in
    Ok (fdiv (fadd (nth (i - 1)%nat data 0) (nth i data 0)) 2).

(** [variance(data)]: the sample variance, on [n - 1]; raises
    [StatisticsError] on fewer than two values. *)
Definition variance (data : list float) : result float :=
  let n := List.length data in
  if (n <? 2)%nat then Raise StatisticsError
  else
    xbar <- mean data ;;
    let ss := sum (map (fun x => fmul (fsub x xbar) (fsub x xbar)) data) in
    Ok (fdiv ss (of_int (Z.of_nat (n - 1)))).

(** [stdev(data)]: the square root of the sample variance; raises
    [StatisticsError] on fewer than two values. *)
Definition stdev (data : list float) : result value :=
  var <- variance data ;;
  Ok (VSqrt var).

End statistics.

(* ================================================================== *)
(** ** The patterns of [run_benchmarks.py]

    Each pattern is quoted above its term; a blank written just inside a
    parenthesis of a quoted pattern is typographic only. *)

Import Re.
Open Scope string_scope.

(** [TIME_UNITS]: the factor that turns each unit into milliseconds. *)
Definition TIME_UNITS : list (string * float) :=
  [("us", 1 # 1000); ("ms", 1); ("s", 1000); ("min", 60000); ("h", 3600000)]%Q.

Fixpoint TIME_UNITS_get (k : string) (d : list (string * float)) : result float :=
  match d with
  | [] => Raise KeyError
  | (k', v) :: d' => if String.eqb k k' then Ok v else TIME_UNITS_get k d'
  end.

(** [time: ( \d+\.?\d* ) (us|ms|s|min|h)], the units being the keys of
    [TIME_UNITS] in their order. *)
Definition TIME_REGEXP : regex :=
  Cat (Lit "time: ")
 (Cat (Group (Cat (Plus digit) (Cat (Opt (Lit ".")) (Star digit))))
 (Cat (Lit " ")
      (Group (Alt (Lit "us") (Alt (Lit "ms") (Alt (Lit "s")
             (Alt (Lit "min") (Lit "h")))))))).

(** [ (\d+) bytes], with a leading blank. *)
Definition SIZE_REGEXP : regex :=
  Cat (Lit " ") (Cat (Group (Plus digit)) (Lit " bytes")).

(** [^(\d{4}-\d{2}-\d{2}) (\d{2}):(\d{2}):(\d{2}\.\d+):] *)
Definition LOG_TIME_REGEXP : regex :=
  Cat Bol
 (Cat (Group (Cat (Rep 4 digit) (Cat (Lit "-") (Cat (Rep 2 digit)
                  (Cat (Lit "-") (Rep 2 digit))))))
 (Cat (Lit " ")
 (Cat (Group (Rep 2 digit))
 (Cat (Lit ":")
 (Cat (Group (Rep 2 digit))
 (Cat (Lit ":")
 (Cat (Group (Cat (Rep 2 digit) (Cat (Lit ".") (Plus digit))))
      (Lit ":")))))))).

(** [NVPTXCompiler::CompileTargetBinary - CompileToPtx.*] *)
Definition GPU_COMPILE_TIME_REGEXP : regex :=
  Cat (Lit "NVPTXCompiler::CompileTargetBinary - CompileToPtx") (Star any).

(** [New Peak memory usage of \d+ bytes for GPU] *)
Definition GPU_PEAK_MEMORY_REGEXP : regex :=
  Cat (Lit "New Peak memory usage of ")
 (Cat (Plus digit) (Lit " bytes for GPU")).

(** [.+HloRunner: ExecuteOnDevices started] *)
Definition GPU_LATENCY_START_REGEXP : regex :=
  Cat (Plus any) (Lit "HloRunner: ExecuteOnDevices started").

(** [.+HloRunner: ExecuteOnDevices succeeded] *)
Definition GPU_LATENCY_STOP_REGEXP : regex :=
  Cat (Plus any) (Lit "HloRunner: ExecuteOnDevices succeeded").

(** [... compiled and ran in ( .* )s.]: every dot is the wildcard, the
    three leading ones and the last one included. *)
Definition CPU_COMPILE_TIME_REGEXP : regex :=
  Cat any (Cat any (Cat any
 (Cat (Lit " compiled and ran in ")
 (Cat (Group (Star any))
 (Cat (Lit "s") any))))).

(** [execution time for runner [A-Za-z]*: ( .* )s.] *)
Definition CPU_LATENCY_REGEXP : regex :=
  Cat (Lit "execution time for runner ")
 (Cat (Star alpha)
 (Cat (Lit ": ")
 (Cat (Group (Star any))
 (Cat (Lit "s") any)))).

(* ================================================================== *)
(** ** Timestamps and the accelerator log *)

(** [_parse_log_time]: milliseconds since midnight of a log line's stamp. *)
Definition _parse_log_time (line : string) : result float :=
  match search LOG_TIME_REGEXP line with
  | None => Raise AssertionError
  | Some mt =>
      match groups mt with
      | [_; h; m; s] =>
          h' <- int h ;;
          m' <- int m ;;
          s' <- float_of_string s ;;
          Ok (fmul 1000 (fadd (of_int (h' * 3600 + m' * 60)) s'))
      | _ => Raise ValueError
      end
  end.

(** [_parse_log_elapsed_time]: the time from [line1] to [line2]. *)
Definition _parse_log_elapsed_time (line1 line2 : string) : result float :=
  start <- _parse_log_time line1 ;;
  end_ <- _parse_log_time line2 ;;
  let end_ := fadd end_ (if fltb end_ start then 86400 else 0) in
  Ok (fsub end_ start).

(** [_parse_latencies]: one latency per (start, stop) pair of marker lines,
    or nothing when the markers do not add up. *)
Definition _parse_latencies (raw_output : string) (expected_iterations : Z)
  : result (list float) :=
  let start_matches := findall GPU_LATENCY_START_REGEXP raw_output in
  let stop_matches := findall GPU_LATENCY_STOP_REGEXP raw_output in
  if negb (List.length start_matches =? List.length stop_matches)%nat then Ok []
  else if negb (Z.of_nat (List.length start_matches) =? expected_iterations)%Z then Ok []
  else
    mapM (fun '(t1, t2) => _parse_log_elapsed_time t1 t2)
         (combine start_matches stop_matches).

(** [_parse_log_duration]: a duration on a log line, in milliseconds. *)
Definition _parse_log_duration (time_str : string) : result float :=
  match search TIME_REGEXP time_str with
  | None => Raise AssertionError
  | Some mt =>
      exp <- TIME_UNITS_get (nth 1 (groups mt) "") TIME_UNITS ;;
      x <- float_of_string (nth 0 (groups mt) "") ;;
      Ok (fmul x exp)
  end.

(** [_parse_log_size]: a size on a log line, in megabytes. *)
Definition _parse_log_size (size_str : string) : result float :=
  match search SIZE_REGEXP size_str with
  | None => Raise AssertionError
  | Some mt =>
      x <- float_of_string (nth 0 (groups mt) "") ;;
      Ok (fmul x (1 # 1000000))
  end.

(** [_parse_compile_time]: the sum of the announced compile times, in
    seconds. *)
Definition _parse_compile_time (raw_output : string) : result float :=
  let matches := findall GPU_COMPILE_TIME_REGEXP raw_output in
  durations <- mapM _parse_log_duration matches ;;
  let total_compile_time_ms := sum durations in
  Ok (fmul total_compile_time_ms (1 # 1000)).

(** [_parse_peak_memory]: the last announced peak. *)
Definition _parse_peak_memory (raw_output : string) : result float :=
  let matches := findall GPU_PEAK_MEMORY_REGEXP raw_output in
  _ <- assert_ (negb (is_nil matches)) ;;
  _parse_log_size (last matches "").

(* ================================================================== *)
(** ** The two runners

    [result_text] is the captured output of the external tool, which the
    source obtains from [subprocess.run]. *)

Definition _run_compiler_benchmark_gpu (result_text : string)
    (benchmark_iterations : Z) : result dict :=
  latencies <- _parse_latencies result_text benchmark_iterations ;;
  compile_time_s <- _parse_compile_time result_text ;;
  peak_memory_usage <- _parse_peak_memory result_text ;;
  mean_latency_ms <-
    (if is_nil latencies then Ok VNone
     else x <- statistics.mean latencies ;; Ok (VFloat x)) ;;
  median_latency_ms <-
    (if is_nil latencies then Ok VNone
     else x <- statistics.median latencies ;; Ok (VFloat x)) ;;
  stddev_latency_ms <-
    (if is_nil latencies then Ok VNone else statistics.stdev latencies) ;;
  Ok [ ("compile_time_s", VFloat compile_time_s);
       ("min_latency_ms", min_default latencies);
       ("max_latency_ms", max_default latencies);
       ("mean_latency_ms", mean_latency_ms);
       ("median_latency_ms", median_latency_ms);
       ("stddev_latency_ms", stddev_latency_ms);
       ("benchmark_iterations", VInt benchmark_iterations);
       ("device_memory_peak_mb", VFloat peak_memory_usage) ].

Definition _run_compiler_benchmark_cpu (result_text : string)
    (benchmark_iterations : Z) : result dict :=
  let matches := findall1 CPU_COMPILE_TIME_REGEXP result_text in
  compile_time_latency <-
    match matches with
    | m :: _ => x <- float_of_string m ;; Ok (VFloat x)
    | [] => Ok VNone
    end ;;
  let matches := findall1 CPU_LATENCY_REGEXP result_text in
  _ <- assert_ (Z.of_nat (List.length matches) =? benchmark_iterations)%Z ;;
  latencies <- mapM (fun m => x <- float_of_string m ;; Ok (fmul x 1000)) matches ;;
  mean_latency_ms <-
    (if is_nil latencies then Ok VNone
     else x <- statistics.mean latencies ;; Ok (VFloat x)) ;;
  median_latency_ms <-
    (if is_nil latencies then Ok VNone
     else x <- statistics.median latencies ;; Ok (VFloat x)) ;;
  stddev_latency_ms <-
    (if is_nil latencies then Ok VNone else statistics.stdev latencies) ;;
  Ok [ ("compile_time_s", compile_time_latency);
       ("min_latency_ms", min_default latencies);
       ("max_latency_ms", max_default latencies);
       ("mean_latency_ms", mean_latency_ms);
       ("median_latency_ms", median_latency_ms);
       ("stddev_latency_ms", stddev_latency_ms);
       ("benchmark_iterations", VInt benchmark_iterations) ].

(* ================================================================== *)
(** ** One benchmark, and the batch *)

(** What [_run] and [main] read of a [def_types.BenchmarkCase], whose
    declaration is not part of these sources; catalogue entries are taken to
    be complete, so that no lookup in them fails. *)
Record BenchmarkCase : Type := {
  bc_id : string;
  bc_name : string;
  bc_model_name : string;
  bc_device_name : string;
  bc_accelerator_type : string
}.

(** [utils.BenchmarkResult]: the benchmark's identity, which the source
    copies field by field out of the catalogue entry and which is kept here
    as the entry itself, and its metrics. *)
Record BenchmarkResult : Type := {
  definition : BenchmarkCase;
  metrics : list (string * dict)
}.

(** Modelled from the spec: [utils.append_benchmark_result], whose code is
    not part of these sources.  The result store is append-only: a record is
    added after the ones already there, which are kept as they are. *)
Definition append_benchmark_result (output : list BenchmarkResult)
    (result : BenchmarkResult) : list BenchmarkResult :=
  (output ++ [result])%list.

Section Batch.

(** The world outside the script: what the external runner prints for a
    benchmark and an iteration count, and whether the benchmark's HLO dump is
    on disk when the loop reaches it. *)
Variable subprocess_run : BenchmarkCase -> Z -> string.
Variable hlo_dump_exists : BenchmarkCase -> bool.

Definition _run (benchmark : BenchmarkCase) (iterations : Z)
  : result BenchmarkResult :=
  let accelerator := bc_accelerator_type benchmark in
  metrics <-
    (if String.eqb accelerator "gpu" then
       _run_compiler_benchmark_gpu (subprocess_run benchmark iterations) iterations
     else if String.eqb accelerator "cpu" then
       _run_compiler_benchmark_cpu (subprocess_run benchmark iterations) iterations
     else Raise ValueError) ;;
  Ok {| definition := benchmark; metrics := [("compiler_level", metrics)] |}.

(** The [for benchmark in benchmarks] loop of [main], threading the result
    store: it returns the store as the loop leaves it, and how the loop
    ended. *)
Fixpoint main_loop (benchmarks : list BenchmarkCase) (iterations : Z)
    (output : list BenchmarkResult) : list BenchmarkResult * result unit :=
  match benchmarks with
  | [] => (output, Ok tt)
  | benchmark :: benchmarks' =>
      if negb (hlo_dump_exists benchmark) then (output, Raise ValueError)
      else
        match _run benchmark iterations with
        | Raise e => (output, Raise e)
        | Ok result =>
            main_loop benchmarks' iterations (append_benchmark_result output result)
        end
  end.

(** [main]: [name_pattern] is the compiled name pattern as a predicate on
    names, [all_benchmarks] the catalogue.  Downloading is left to the world:
    [hlo_dump_exists] is read after it. *)
Definition main (all_benchmarks : list BenchmarkCase)
    (name_pattern : string -> bool) (output : list BenchmarkResult)
    (iterations : Z) : list BenchmarkResult * result unit :=
  let benchmarks := filter (fun b => name_pattern (bc_name b)) all_benchmarks in
  if is_nil benchmarks then (output, Raise ValueError)
  else main_loop benchmarks iterations output.

End Batch.

(* ================================================================== *)
(** ** Concrete logs *)

Definition nl : string := String newline "".

(** Two stamps either side of midnight, one second apart. *)
Definition line_before_midnight : string :=
  "2023-05-01 23:59:59.500000: I hlo_runner.cc:1] HloRunner: ExecuteOnDevices started".
Definition line_after_midnight : string :=
  "2023-05-02 00:00:00.500000: I hlo_runner.cc:1] HloRunner: ExecuteOnDevices succeeded".

(** The marker lines of two runs, of 250 ms and of 750 ms. *)
Definition gpu_start_1 : string :=
  "2023-05-01 10:00:05.000000: I hlo_runner.cc:1] HloRunner: ExecuteOnDevices started".
Definition gpu_stop_1 : string :=
  "2023-05-01 10:00:05.250000: I hlo_runner.cc:1] HloRunner: ExecuteOnDevices succeeded".
Definition gpu_start_2 : string :=
  "2023-05-01 10:00:07.000000: I hlo_runner.cc:1] HloRunner: ExecuteOnDevices started".
Definition gpu_stop_2 : string :=
  "2023-05-01 10:00:07.750000: I hlo_runner.cc:1] HloRunner: ExecuteOnDevices succeeded".

(** An accelerator log: two compile announcements, two peaks, two runs. *)
Definition gpu_log : string :=
  "2023-05-01 10:00:00.000000: I nvptx.cc:1] NVPTXCompiler::CompileTargetBinary - CompileToPtx time: 2.5 s" ++ nl ++
  "2023-05-01 10:00:03.000000: I nvptx.cc:1] NVPTXCompiler::CompileTargetBinary - CompileToPtx time: 500 us" ++ nl ++
  "2023-05-01 10:00:04.000000: I bfc.cc:1] New Peak memory usage of 1000000 bytes for GPU" ++ nl ++
  gpu_start_1 ++ nl ++
  gpu_stop_1 ++ nl ++
  "2023-05-01 10:00:06.000000: I bfc.cc:1] New Peak memory usage of 2500000 bytes for GPU" ++ nl ++
  gpu_start_2 ++ nl ++
  gpu_stop_2 ++ nl.

(** An accelerator log with one run only and no compile announcement. *)
Definition gpu_log_one_run : string :=
  "2023-05-01 10:00:04.000000: I bfc.cc:1] New Peak memory usage of 1000000 bytes for GPU" ++ nl ++
  gpu_start_1 ++ nl ++
  gpu_stop_1 ++ nl.

(** An accelerator log with a peak announcement and nothing else. *)
Definition gpu_log_no_runs : string :=
  "2023-05-01 10:00:04.000000: I bfc.cc:1] New Peak memory usage of 1000000 bytes for GPU" ++ nl.

(** Marker lines that carry no time stamp. *)
Definition gpu_log_no_stamps : string :=
  "I hlo_runner.cc:1] HloRunner: ExecuteOnDevices started" ++ nl ++
  "I hlo_runner.cc:1] HloRunner: ExecuteOnDevices succeeded" ++ nl.

(** The host scenario as the specification spells it: no blank between the
    three dots and [compiled]. *)
Definition cpu_log_spec : string :=
  "...compiled and ran in 1.23s." ++ nl ++
  "...compiled and ran in 4.56s." ++ nl ++
  "execution time for runner x: 0.10s." ++ nl ++
  "execution time for runner x: 0.12s.".

(** The same scenario as the external tool prints it, with the blank. *)
Definition cpu_log : string :=
  "... compiled and ran in 1.23s." ++ nl ++
  "... compiled and ran in 4.56s." ++ nl ++
  "execution time for runner x: 0.10s." ++ nl ++
  "execution time for runner x: 0.12s.".

(** A host log of a single iteration. *)
Definition cpu_log_one_run : string :=
  "... compiled and ran in 1.23s." ++ nl ++
  "execution time for runner x: 0.10s." ++ nl.

(** A batch of two: a benchmark for an accelerator class without a parser,
    then a host benchmark whose log is [cpu_log]. *)
Definition tpu_case : BenchmarkCase :=
  {| bc_id := "id-0"; bc_name := "models/A"; bc_model_name := "A";
     bc_device_name := "tpu-v4"; bc_accelerator_type := "tpu" |}.
Definition cpu_case : BenchmarkCase :=
  {| bc_id := "id-1"; bc_name := "models/B"; bc_model_name := "B";
     bc_device_name := "c2-standard-16"; bc_accelerator_type := "cpu" |}.
Definition batch_world (b : BenchmarkCase) (iterations : Z) : string := cpu_log.

(** The metrics of the host scenario log. *)
Definition cpu_case_result : BenchmarkResult :=
  {| definition := cpu_case;
     metrics :=
       [("compiler_level",
         [ ("compile_time_s", VFloat (123 # 100));
           ("min_latency_ms", VFloat 100);
           ("max_latency_ms", VFloat 120);
           ("mean_latency_ms", VFloat 110);
           ("median_latency_ms", VFloat 110);
           ("stddev_latency_ms", VSqrt 200);
           ("benchmark_iterations", VInt 2) ])] |}.

(** The latency entries of a metrics dictionary are all [None]. *)
Definition latency_fields_absent (d : dict) : Prop :=
  get "min_latency_ms" d = Some VNone /\
  get "max_latency_ms" d = Some VNone /\
  get "mean_latency_ms" d = Some VNone /\
  get "median_latency_ms" d = Some VNone /\
  get "stddev_latency_ms" d = Some VNone.

(** [st'] is [st] after some of its text was consumed. *)
Definition advances (st st' : state) : Prop :=
  (pos st <= pos st')%N /\
  (String.length (rest st') + N.to_nat (pos st' - pos st)
   = String.length (rest st))%nat.

(** [needle] occurs somewhere in [hay]. *)
Fixpoint contains (needle hay : string) : bool :=
  match strip_prefix needle hay with
  | Some _ => true
  | None =>
      match hay with
      | EmptyString => false
      | String _ hay' => contains needle hay'
      end
  end.

(* ================================================================== *)
(** ** What a pattern denotes

    [denotes r w c]: the pattern [r] can match exactly the text [w], its
    groups capturing the texts [c], in the order in which they close.  The
    anchor [^] denotes the empty text; where it may stand is the matcher's
    business. *)
Inductive denotes : regex -> string -> list string -> Prop :=
| D_Lit (s : string) : denotes (Lit s) s []
| D_Set (p : ascii -> bool) (c : ascii) :
    p c = true -> denotes (Set_ p) (String c "") []
| D_Cat (r1 r2 : regex) (w1 w2 : string) (c1 c2 : list string) :
    denotes r1 w1 c1 -> denotes r2 w2 c2 ->
    denotes (Cat r1 r2) (w1 ++ w2) (c1 ++ c2)%list
| D_Alt_l (r1 r2 : regex) (w : string) (c : list string) :
    denotes r1 w c -> denotes (Alt r1 r2) w c
| D_Alt_r (r1 r2 : regex) (w : string) (c : list string) :
    denotes r2 w c -> denotes (Alt r1 r2) w c
| D_Star_nil (r : regex) : denotes (Star r) "" []
| D_Star_cons (r : regex) (w1 w2 : string) (c1 c2 : list string) :
    denotes r w1 c1 -> denotes (Star r) w2 c2 ->
    denotes (Star r) (w1 ++ w2) (c1 ++ c2)%list
| D_Group (r : regex) (w : string) (c : list string) :
    denotes r w c -> denotes (Group r) w (c ++ [w])%list
| D_Bol : denotes Bol "" [].

(** Every character of [s] satisfies [p]. *)
Fixpoint all_chars (p : ascii -> bool) (s : string) : bool :=
  match s with
  | EmptyString => true
  | String c s' => p c && all_chars p s'
  end.

(** [st'] is [st] after [r] matched the text [w] and captured [c]. *)
Definition steps (r : regex) (st st' : state) : Prop :=
  exists w c,
    rest st = w ++ rest st' /\
    pos st' = (pos st + N.of_nat (String.length w))%N /\
    caps st' = (caps st ++ c)%list /\
    denotes r w c.

(** [st'] is what the matcher tries first for [r] from [st]. *)
Definition first_of (r : regex) (st st' : state) : Prop :=
  exists tl, exec r st = st' :: tl.



(* ================================================================== *)
(** * Properties *)

(** Conjunctions are split without touching the equations under them;
    closed goals are settled by evaluation, conjunct by conjunct. *)
Ltac splits := repeat match goal with |- _ /\ _ => split end.
Ltac evaluate := splits; vm_compute; reflexivity.

(** ** The error monad *)

Lemma bind_Ok {A B : Type} (c : result A) (k : A -> result B) (b : B) :
  bind c k = Ok b -> exists a, c = Ok a /\ k a = Ok b.
Proof.
  destruct c as [a | e]; simpl; intros H.
  - exists a; split; [reflexivity | exact H].
  - discriminate H.
Qed.

Lemma mapM_length {A B : Type} (f : A -> result B) (l : list A) (bs : list B) :
  mapM f l = Ok bs -> List.length bs = List.length l.
Proof.
  revert bs; induction l as [| a l IH]; simpl; intros bs H.
  - injection H as <-; reflexivity.
  - apply bind_Ok in H as (b & _ & H).
    apply bind_Ok in H as (bs' & Hbs & H).
    injection H as <-; simpl; f_equal; apply IH; exact Hbs.
Qed.

Lemma mapM_Forall2 {A B : Type} (f : A -> result B) (l : list A) (bs : list B) :
  mapM f l = Ok bs -> Forall2 (fun a b => f a = Ok b) l bs.
Proof.
  revert bs; induction l as [| a l IH]; simpl; intros bs H.
  - injection H as <-; constructor.
  - apply bind_Ok in H as (b & Hb & H).
    apply bind_Ok in H as (bs' & Hbs & H).
    injection H as <-; constructor; [exact Hb | apply IH; exact Hbs].
Qed.

Lemma mapM_total {A B : Type} (f : A -> result B) (l : list A) :
  (forall a, In a l -> exists b, f a = Ok b) -> exists bs, mapM f l = Ok bs.
Proof.
  induction l as [| a l IH]; simpl; intros H.
  - exists []; reflexivity.
  - destruct (H a (or_introl eq_refl)) as (b & Hb).
    destruct IH as (bs & Hbs); [intros a' Ha'; apply H; right; exact Ha' |].
    exists (b :: bs); rewrite Hb, Hbs; reflexivity.
Qed.

Lemma mapM_nil_inv {A B : Type} (f : A -> result B) (l : list A) :
  mapM f l = Ok [] -> l = [].
Proof.
  intros H; apply mapM_length in H; destruct l; [reflexivity | discriminate H].
Qed.

(** ** The model on small inputs *)

Example duration_seconds : _parse_log_duration "time: 2.5 s" = Ok 2500.
Proof. evaluate. Qed.

Example duration_microseconds : _parse_log_duration "time: 500 us" = Ok (1 # 2).
Proof. evaluate. Qed.

Example gpu_log_latencies : _parse_latencies gpu_log 2 = Ok [250; 750].
Proof. evaluate. Qed.

Example gpu_log_compile_time : _parse_compile_time gpu_log = Ok (5001 # 2000).
Proof. evaluate. Qed.

Example gpu_log_peak_memory : _parse_peak_memory gpu_log = Ok (5 # 2).
Proof. evaluate. Qed.

Example elapsed_same_day :
  _parse_log_elapsed_time gpu_start_1 gpu_stop_1 = Ok 250.
Proof. evaluate. Qed.

(** ** The matcher: repetition never runs out of fuel *)

Lemma advances_refl (st : state) : advances st st.
Proof. unfold advances; lia. Qed.

Lemma advances_trans (st1 st2 st3 : state) :
  advances st1 st2 -> advances st2 st3 -> advances st1 st3.
Proof. unfold advances; lia. Qed.

Lemma strip_prefix_length (p s r : string) :
  strip_prefix p s = Some r ->
  String.length s = (String.length p + String.length r)%nat.
Proof.
  revert s; induction p as [| a p IH]; simpl; intros s H.
  - injection H as ->; reflexivity.
  - destruct s as [| b s]; [discriminate H |].
    destruct (Ascii.eqb a b); [| discriminate H].
    simpl; f_equal; apply IH; exact H.
Qed.

Lemma star_advances (step : state -> list state) :
  (forall st st', In st' (step st) -> advances st st') ->
  forall fuel st acc st',
    In st' (star step fuel st acc) -> advances st st' \/ In st' acc.
Proof.
  intros Hstep; induction fuel as [| fuel IH]; intros st acc st'; simpl.
  - intros [<- | H]; [left; apply advances_refl | right; exact H].
  - assert (Hl : forall x, In x (filter (fun x => (pos st <? pos x)%N) (step st)) ->
                           advances st x).
    { intros x Hx; apply filter_In in Hx as [Hx _]; apply Hstep; exact Hx. }
    induction (filter (fun x => (pos st <? pos x)%N) (step st)) as [| x l IHl]; simpl.
    + intros [<- | H]; [left; apply advances_refl | right; exact H].
    + intros H; apply IH in H as [H | H].
      * left; apply (advances_trans st x st'); [apply Hl; left; reflexivity | exact H].
      * apply IHl; [intros y Hy; apply Hl; right; exact Hy | exact H].
Qed.

(** Matching only moves forward in the text. *)
Lemma exec_advances (r : regex) :
  forall st st', In st' (exec r st) -> advances st st'.
Proof.
  induction r as [s | p | r1 IH1 r2 IH2 | r1 IH1 r2 IH2 | r IH | r IH |];
    intros st st'; simpl.
  - destruct (strip_prefix s (rest st)) as [rest' |] eqn:E; simpl;
      [| contradiction].
    intros [<- | []]; apply strip_prefix_length in E.
    unfold advances; cbn [pos rest]; lia.
  - destruct (rest st) as [| c rest'] eqn:E; simpl; [contradiction |].
    destruct (p c); simpl; [| contradiction].
    intros [<- | []]; unfold advances; cbn [pos rest]; rewrite E;
      cbn [String.length]; lia.
  - intros H; apply in_flat_map in H as (x & Hx & H).
    exact (advances_trans st x st' (IH1 _ _ Hx) (IH2 _ _ H)).
  - intros H; apply in_app_or in H as [H | H]; [apply IH1 | apply IH2]; exact H.
  - intros H; apply (star_advances (exec r) IH) in H as [H | []]; exact H.
  - intros H; apply in_map_iff in H as (x & <- & Hx).
    apply IH in Hx; exact Hx.
  - destruct (pos st =? 0)%N; simpl; [| contradiction].
    intros [<- | []]; apply advances_refl.
Qed.

Lemma fold_right_ext_in {A B : Type} (f g : B -> A -> A) (a : A) (l : list B) :
  (forall x y, In x l -> f x y = g x y) -> fold_right f a l = fold_right g a l.
Proof.
  induction l as [| x l IH]; simpl; intros H; [reflexivity |].
  rewrite IH; [apply H; left; reflexivity |].
  intros y z Hy; apply H; right; exact Hy.
Qed.

Lemma star_fuel (step : state -> list state) :
  (forall st st', In st' (step st) -> advances st st') ->
  forall fuel1 fuel2 st acc,
    (String.length (rest st) <= fuel1)%nat ->
    (String.length (rest st) <= fuel2)%nat ->
    star step fuel1 st acc = star step fuel2 st acc.
Proof.
  intros Hstep.
  assert (Hstuck : forall st, String.length (rest st) = 0%nat ->
                              filter (fun x => (pos st <? pos x)%N) (step st) = []).
  { intros st Hlen.
    destruct (filter _ (step st)) as [| x l] eqn:E; [reflexivity |].
    assert (Hx : In x (filter (fun x => (pos st <? pos x)%N) (step st)))
      by (rewrite E; left; reflexivity).
    apply filter_In in Hx as [Hx Hlt]; apply N.ltb_lt in Hlt.
    apply Hstep in Hx; unfold advances in Hx; lia. }
  induction fuel1 as [| fuel1 IH]; intros [| fuel2] st acc H1 H2; simpl;
    try reflexivity.
  - rewrite Hstuck by lia; reflexivity.
  - rewrite Hstuck by lia; reflexivity.
  - apply fold_right_ext_in; intros x y Hx.
    apply filter_In in Hx as [Hx Hlt]; apply N.ltb_lt in Hlt.
    apply Hstep in Hx; unfold advances in Hx; apply IH; lia.
Qed.

(** More fuel than the length of the remaining text changes nothing: the
    repetition in [exec] is the unbounded one. *)
Lemma exec_Star_fuel (r : regex) (st : state) (extra : nat) :
  star (exec r) (String.length (rest st) + extra) st [] = exec (Star r) st.
Proof.
  simpl; apply star_fuel; [apply exec_advances | lia | lia].
Qed.

(** ** Timestamps *)

Lemma fltb_true (x y : float) : fltb x y = true <-> (x < y)%Q.
Proof.
  unfold fltb; rewrite negb_true_iff; split; intros H.
  - apply Qnot_le_lt; intros Hle; apply Qle_bool_iff in Hle; congruence.
  - destruct (Qle_bool y x) eqn:E; [| reflexivity].
    apply Qle_bool_iff in E; exfalso; exact (Qlt_not_le _ _ H E).
Qed.

(** What the rollover branch computes: the stop stamp plus 86400, minus the
    start stamp, on stamps that are in milliseconds. *)
Lemma _parse_log_elapsed_time_rollover (line1 line2 : string) (start end_ : float) :
  _parse_log_time line1 = Ok start ->
  _parse_log_time line2 = Ok end_ ->
  fltb end_ start = true ->
  _parse_log_elapsed_time line1 line2 = Ok (fsub (fadd end_ 86400) start).
Proof.
  intros H1 H2 Hlt; unfold _parse_log_elapsed_time.
  rewrite H1, H2; simpl; rewrite Hlt; reflexivity.
Qed.

(** C1 (the code departs from the claim): across midnight the correction
    added to the stop stamp is 86400, on stamps in milliseconds, and not the
    86 400 000 ms of a day.  From 23:59:59.5 to 00:00:00.5 the elapsed time
    comes out as -86 312 600 ms, where (end + 86 400 000) - start is 1000. *)
Theorem elapsed_time_rollover_adds_86400 :
  (forall line1 line2 start end_,
     _parse_log_time line1 = Ok start ->
     _parse_log_time line2 = Ok end_ ->
     fltb end_ start = true ->
     _parse_log_elapsed_time line1 line2 = Ok (fsub (fadd end_ 86400) start)) /\
  _parse_log_time line_before_midnight = Ok 86399500 /\
  _parse_log_time line_after_midnight = Ok 500 /\
  _parse_log_elapsed_time line_before_midnight line_after_midnight
    = Ok (-86312600) /\
  fsub (fadd 500 86400000) 86399500 = 1000.
Proof.
  split; [exact _parse_log_elapsed_time_rollover | evaluate].
Qed.

(** C2 (the code departs from the claim): whenever the stop stamp is more
    than 86.4 seconds of clock time behind the start stamp, as it is for an
    interval that crosses midnight, the elapsed time is negative; so it is
    from 23:59:59.5 to 00:00:00.5. *)
Theorem elapsed_time_negative_across_midnight :
  (forall line1 line2 start end_,
     _parse_log_time line1 = Ok start ->
     _parse_log_time line2 = Ok end_ ->
     (end_ + 86400 < start)%Q ->
     exists x, _parse_log_elapsed_time line1 line2 = Ok x /\ (x < 0)%Q) /\
  (exists x,
     _parse_log_elapsed_time line_before_midnight line_after_midnight = Ok x /\
     (x < 0)%Q).
Proof.
  split.
  - intros line1 line2 start end_ H1 H2 Hlt.
    exists (fsub (fadd end_ 86400) start); split.
    + apply _parse_log_elapsed_time_rollover; [exact H1 | exact H2 |].
      apply fltb_true; lra.
    + unfold fsub, fadd; rewrite !Qred_correct; lra.
  - exists (-86312600); split; [vm_compute; reflexivity | reflexivity].
Qed.

(** ** Summary statistics *)

Lemma stdev_single (x : float) : statistics.stdev [x] = Raise StatisticsError.
Proof. reflexivity. Qed.

(** C3 (the code departs from the claim): with exactly one latency sample
    the aggregation does not return a record with the deviation absent;
    [statistics.stdev] raises [StatisticsError], the emptiness test in front
    of it letting a single sample through, in both runners. *)
Theorem single_sample_aggregation_raises :
  (forall x, statistics.stdev [x] = Raise StatisticsError) /\
  findall1 CPU_LATENCY_REGEXP cpu_log_one_run = ["0.10"] /\
  _run_compiler_benchmark_cpu cpu_log_one_run 1 = Raise StatisticsError /\
  _parse_latencies gpu_log_one_run 1 = Ok [250] /\
  _run_compiler_benchmark_gpu gpu_log_one_run 1 = Raise StatisticsError.
Proof.
  split; [exact stdev_single | evaluate].
Qed.

Lemma mapM_Raise {A B : Type} (f : A -> result B) (l : list A) (a : A) (e : exception) :
  In a l -> f a = Raise e -> exists e', mapM f l = Raise e'.
Proof.
  induction l as [| a' l IH]; simpl; intros Hin Hf; [contradiction |].
  destruct (f a') as [b |e1] eqn:Ea'; simpl; [| exists e1; reflexivity].
  destruct Hin as [-> | Hin]; [congruence |].
  destruct (IH Hin Hf) as (e' & ->); exists e'; reflexivity.
Qed.

(** ** The metrics dictionaries *)

Lemma gpu_dict_shape (result_text : string) (n : Z) (d : dict) :
  _run_compiler_benchmark_gpu result_text n = Ok d ->
  exists latencies c p mean median stddev,
    _parse_latencies result_text n = Ok latencies /\
    _parse_compile_time result_text = Ok c /\
    (if is_nil latencies then Ok VNone
     else x <- statistics.mean latencies ;; Ok (VFloat x)) = Ok mean /\
    (if is_nil latencies then Ok VNone
     else x <- statistics.median latencies ;; Ok (VFloat x)) = Ok median /\
    (if is_nil latencies then Ok VNone else statistics.stdev latencies) = Ok stddev /\
    d = [ ("compile_time_s", VFloat c);
          ("min_latency_ms", min_default latencies);
          ("max_latency_ms", max_default latencies);
          ("mean_latency_ms", mean);
          ("median_latency_ms", median);
          ("stddev_latency_ms", stddev);
          ("benchmark_iterations", VInt n);
          ("device_memory_peak_mb", VFloat p) ].
Proof.
  unfold _run_compiler_benchmark_gpu; intros H.
  apply bind_Ok in H as (latencies & HL & H).
  apply bind_Ok in H as (c & Hc & H).
  apply bind_Ok in H as (p & _ & H).
  apply bind_Ok in H as (mean & Hmean & H).
  apply bind_Ok in H as (median & Hmedian & H).
  apply bind_Ok in H as (stddev & Hstddev & H).
  injection H as <-.
  exists latencies, c, p, mean, median, stddev; splits; solve [assumption | reflexivity].
Qed.

Lemma cpu_dict_shape (result_text : string) (n : Z) (d : dict) :
  _run_compiler_benchmark_cpu result_text n = Ok d ->
  exists c latencies mean median stddev,
    match findall1 CPU_COMPILE_TIME_REGEXP result_text with
    | m :: _ => x <- float_of_string m ;; Ok (VFloat x)
    | [] => Ok VNone
    end = Ok c /\
    Z.of_nat (List.length (findall1 CPU_LATENCY_REGEXP result_text)) = n /\
    mapM (fun m => x <- float_of_string m ;; Ok (fmul x 1000))
         (findall1 CPU_LATENCY_REGEXP result_text) = Ok latencies /\
    (if is_nil latencies then Ok VNone
     else x <- statistics.mean latencies ;; Ok (VFloat x)) = Ok mean /\
    (if is_nil latencies then Ok VNone
     else x <- statistics.median latencies ;; Ok (VFloat x)) = Ok median /\
    (if is_nil latencies then Ok VNone else statistics.stdev latencies) = Ok stddev /\
    d = [ ("compile_time_s", c);
          ("min_latency_ms", min_default latencies);
          ("max_latency_ms", max_default latencies);
          ("mean_latency_ms", mean);
          ("median_latency_ms", median);
          ("stddev_latency_ms", stddev);
          ("benchmark_iterations", VInt n) ].
Proof.
  unfold _run_compiler_benchmark_cpu; cbv zeta; intros H.
  apply bind_Ok in H as (c & Hc & H).
  apply bind_Ok in H as (u & Hu & H).
  apply bind_Ok in H as (latencies & HL & H).
  apply bind_Ok in H as (mean & Hmean & H).
  apply bind_Ok in H as (median & Hmedian & H).
  apply bind_Ok in H as (stddev & Hstddev & H).
  injection H as <-.
  exists c, latencies, mean, median, stddev; splits;
    try solve [assumption | reflexivity].
  unfold assert_ in Hu.
  destruct (Z.eqb_spec (Z.of_nat (List.length (findall1 CPU_LATENCY_REGEXP result_text))) n)
    as [E | E]; [exact E | discriminate Hu].
Qed.

Lemma statistics_of_no_latencies (mean median stddev : value) :
  (if is_nil (@nil float) then Ok VNone
   else x <- statistics.mean [] ;; Ok (VFloat x)) = Ok mean ->
  (if is_nil (@nil float) then Ok VNone
   else x <- statistics.median [] ;; Ok (VFloat x)) = Ok median ->
  (if is_nil (@nil float) then Ok VNone else statistics.stdev []) = Ok stddev ->
  mean = VNone /\ median = VNone /\ stddev = VNone.
Proof.
  simpl; intros H1 H2 H3; splits; congruence.
Qed.

(** C4: in both runners, when the list of latency samples is empty, the
    metrics dictionary that is produced maps [min_latency_ms],
    [max_latency_ms], [mean_latency_ms], [median_latency_ms] and
    [stddev_latency_ms] to [None], not to a number. *)
Theorem empty_latencies_fields_absent :
  (forall result_text n d,
     _parse_latencies result_text n = Ok [] ->
     _run_compiler_benchmark_gpu result_text n = Ok d ->
     latency_fields_absent d) /\
  (forall result_text n d,
     findall1 CPU_LATENCY_REGEXP result_text = [] ->
     _run_compiler_benchmark_cpu result_text n = Ok d ->
     latency_fields_absent d).
Proof.
  split; intros result_text n d Hempty H.
  - apply gpu_dict_shape in H
      as (latencies & c & p & mean & median & stddev & HL & _ & H1 & H2 & H3 & ->).
    rewrite Hempty in HL; injection HL as <-.
    destruct (statistics_of_no_latencies _ _ _ H1 H2 H3) as (-> & -> & ->).
    unfold latency_fields_absent; splits; reflexivity.
  - apply cpu_dict_shape in H
      as (c & latencies & mean & median & stddev & _ & _ & HL & H1 & H2 & H3 & ->).
    rewrite Hempty in HL; injection HL as <-.
    destruct (statistics_of_no_latencies _ _ _ H1 H2 H3) as (-> & -> & ->).
    unfold latency_fields_absent; splits; reflexivity.
Qed.

(** The accelerator log with two runs read for three iterations, and the
    empty host log read for none. *)
Lemma empty_latencies_fields_absent_witness :
  (exists d, _run_compiler_benchmark_gpu gpu_log 3 = Ok d /\ latency_fields_absent d) /\
  (exists d, _run_compiler_benchmark_cpu "" 0 = Ok d /\ latency_fields_absent d).
Proof.
  split.
  - eexists; split; [vm_compute; reflexivity |].
    apply (proj1 empty_latencies_fields_absent gpu_log 3%Z);
      vm_compute; reflexivity.
  - eexists; split; [vm_compute; reflexivity |].
    apply (proj2 empty_latencies_fields_absent "" 0%Z);
      vm_compute; reflexivity.
Defined.

(** ** Marker counting in the accelerator log *)

Lemma _parse_latencies_mismatch (raw_output : string) (n : Z) :
  List.length (findall GPU_LATENCY_START_REGEXP raw_output)
    <> List.length (findall GPU_LATENCY_STOP_REGEXP raw_output) \/
  Z.of_nat (List.length (findall GPU_LATENCY_START_REGEXP raw_output)) <> n ->
  _parse_latencies raw_output n = Ok [].
Proof.
  unfold _parse_latencies; cbv zeta; intros [H | H].
  - apply Nat.eqb_neq in H; rewrite H; reflexivity.
  - apply Z.eqb_neq in H; rewrite H.
    destruct (_ =? _)%nat; reflexivity.
Qed.

Lemma _parse_latencies_aligned (raw_output : string) (n : Z) :
  List.length (findall GPU_LATENCY_START_REGEXP raw_output)
    = List.length (findall GPU_LATENCY_STOP_REGEXP raw_output) ->
  Z.of_nat (List.length (findall GPU_LATENCY_START_REGEXP raw_output)) = n ->
  _parse_latencies raw_output n
  = mapM (fun '(t1, t2) => _parse_log_elapsed_time t1 t2)
         (combine (findall GPU_LATENCY_START_REGEXP raw_output)
                  (findall GPU_LATENCY_STOP_REGEXP raw_output)).
Proof.
  unfold _parse_latencies; cbv zeta; intros H1 H2.
  apply Nat.eqb_eq in H1; apply Z.eqb_eq in H2; rewrite H1, H2; reflexivity.
Qed.

Lemma _parse_log_elapsed_time_total (line1 line2 : string) :
  (exists t, _parse_log_time line1 = Ok t) ->
  (exists t, _parse_log_time line2 = Ok t) ->
  exists x, _parse_log_elapsed_time line1 line2 = Ok x.
Proof.
  intros (t1 & H1) (t2 & H2); unfold _parse_log_elapsed_time.
  rewrite H1, H2; simpl; eexists; reflexivity.
Qed.

Lemma _parse_log_elapsed_time_Raise (line1 line2 : string) (e : exception) :
  _parse_log_time line1 = Raise e \/ _parse_log_time line2 = Raise e ->
  exists e', _parse_log_elapsed_time line1 line2 = Raise e'.
Proof.
  unfold _parse_log_elapsed_time; intros [H | H].
  - rewrite H; exists e; reflexivity.
  - destruct (_parse_log_time line1) as [t |e1]; simpl;
      [rewrite H; exists e | exists e1]; reflexivity.
Qed.

Lemma In_combine_l_total {A B : Type} (l : list A) (l' : list B) (a : A) :
  List.length l = List.length l' -> In a l -> exists b, In (a, b) (combine l l').
Proof.
  revert l'; induction l as [| x l IH]; intros [| y l'] Hlen Hin;
    try discriminate Hlen; simpl in *; [contradiction |].
  destruct Hin as [-> | Hin].
  - exists y; left; reflexivity.
  - destruct (IH l' (eq_add_S _ _ Hlen) Hin) as (b & Hb); exists b; right; exact Hb.
Qed.

Lemma In_combine_r_total {A B : Type} (l : list A) (l' : list B) (b : B) :
  List.length l = List.length l' -> In b l' -> exists a, In (a, b) (combine l l').
Proof.
  revert l'; induction l as [| x l IH]; intros [| y l'] Hlen Hin;
    try discriminate Hlen; simpl in *; [contradiction |].
  destruct Hin as [-> | Hin].
  - exists x; left; reflexivity.
  - destruct (IH l' (eq_add_S _ _ Hlen) Hin) as (a & Ha); exists a; right; exact Ha.
Qed.

(** C5, as amended: when the numbers of start markers and of stop markers
    differ, or differ from the expected iteration count [n], the parser
    returns the empty list.  Otherwise it is the list of the elapsed times
    of the aligned (start, stop) pairs, in marker order: exactly [n]
    latencies provided every marker line opens with a time stamp, and an
    exception as soon as one does not. *)
Theorem parse_latencies_counts (raw_output : string) (n : Z) :
  let starts := findall GPU_LATENCY_START_REGEXP raw_output in
  let stops := findall GPU_LATENCY_STOP_REGEXP raw_output in
  (List.length starts <> List.length stops \/ Z.of_nat (List.length starts) <> n ->
   _parse_latencies raw_output n = Ok []) /\
  (List.length starts = List.length stops -> Z.of_nat (List.length starts) = n ->
   ((forall line, In line starts \/ In line stops ->
                  exists t, _parse_log_time line = Ok t) ->
    exists latencies,
      _parse_latencies raw_output n = Ok latencies /\
      Z.of_nat (List.length latencies) = n /\
      Forall2 (fun p x => _parse_log_elapsed_time (fst p) (snd p) = Ok x)
              (combine starts stops) latencies) /\
   (forall line e, In line starts \/ In line stops ->
                   _parse_log_time line = Raise e ->
                   exists e', _parse_latencies raw_output n = Raise e')).
Proof.
  intros starts stops; split; [apply _parse_latencies_mismatch |].
  intros Hlen Hn.
  rewrite (_parse_latencies_aligned raw_output n Hlen Hn); fold starts stops.
  split.
  - intros Hstamps.
    destruct (mapM_total (fun '(t1, t2) => _parse_log_elapsed_time t1 t2)
                         (combine starts stops)) as (latencies & HL).
    { intros [t1 t2] Hin; apply _parse_log_elapsed_time_total; apply Hstamps.
      - left; exact (in_combine_l _ _ _ _ Hin).
      - right; exact (in_combine_r _ _ _ _ Hin). }
    exists latencies; split; [exact HL | split].
    + rewrite (mapM_length _ _ _ HL), length_combine, <- Hlen, Nat.min_id; exact Hn.
    + apply mapM_Forall2 in HL.
      eapply Forall2_impl; [| exact HL]; intros [t1 t2] x Hx; exact Hx.
  - intros line e [Hin | Hin] Hline.
    + destruct (In_combine_l_total starts stops line Hlen Hin) as (t2 & Hpair).
      destruct (_parse_log_elapsed_time_Raise line t2 e (or_introl Hline)) as (e1 & He1).
      exact (mapM_Raise (fun '(t1, t2) => _parse_log_elapsed_time t1 t2)
                        _ (line, t2) e1 Hpair He1).
    + destruct (In_combine_r_total starts stops line Hlen Hin) as (t1 & Hpair).
      destruct (_parse_log_elapsed_time_Raise t1 line e (or_intror Hline)) as (e1 & He1).
      exact (mapM_Raise (fun '(t1, t2) => _parse_log_elapsed_time t1 t2)
                        _ (t1, line) e1 Hpair He1).
Qed.

(** The accelerator log with two runs: a mismatch when read for three
    iterations, two latencies when read for two. *)
Lemma parse_latencies_counts_witness :
  _parse_latencies gpu_log 3 = Ok [] /\
  exists latencies,
    _parse_latencies gpu_log 2 = Ok latencies /\
    Z.of_nat (List.length latencies) = 2%Z /\
    Forall2 (fun p x => _parse_log_elapsed_time (fst p) (snd p) = Ok x)
            (combine (findall GPU_LATENCY_START_REGEXP gpu_log)
                     (findall GPU_LATENCY_STOP_REGEXP gpu_log)) latencies.
Proof.
  split.
  - apply (proj1 (parse_latencies_counts gpu_log 3)).
    right; vm_compute; discriminate.
  - pose proof (proj2 (parse_latencies_counts gpu_log 2)) as H; cbv zeta in H.
    specialize (H ltac:(vm_compute; reflexivity) ltac:(vm_compute; reflexivity)).
    apply (proj1 H).
    assert (Estart : findall GPU_LATENCY_START_REGEXP gpu_log
                     = [gpu_start_1; gpu_start_2]) by (vm_compute; reflexivity).
    assert (Estop : findall GPU_LATENCY_STOP_REGEXP gpu_log
                    = [gpu_stop_1; gpu_stop_2]) by (vm_compute; reflexivity).
    intros line Hin; rewrite Estart, Estop in Hin; simpl in Hin.
    decompose [or] Hin; try contradiction; subst line;
      eexists; vm_compute; reflexivity.
Defined.

(** C5 as first stated fails: a log whose single start and single stop
    marker line carry no time stamp has matching counts for one iteration,
    and the parser raises instead of returning one latency. *)
Lemma parse_latencies_unstamped_raises :
  List.length (findall GPU_LATENCY_START_REGEXP gpu_log_no_stamps) = 1%nat /\
  List.length (findall GPU_LATENCY_STOP_REGEXP gpu_log_no_stamps) = 1%nat /\
  _parse_latencies gpu_log_no_stamps 1 = Raise AssertionError.
Proof. evaluate. Qed.

(** ** The host log *)

Lemma exponent_Raise (s : string) (e : exception) :
  exponent s = Raise e -> e = ValueError.
Proof.
  unfold exponent; destruct s as [| c s']; [discriminate |].
  destruct (_ || _); [| congruence].
  destruct (sign s') as [neg s1]; destruct (span is_digit s1) as [ds s2].
  destruct (_ || _); congruence.
Qed.

Lemma float_of_string_Raise (s : string) (e : exception) :
  float_of_string s = Raise e -> e = ValueError.
Proof.
  unfold float_of_string.
  destruct (sign (strip s)) as [neg s1]; destruct (span is_digit s1) as [ip s2].
  destruct (match s2 with
            | String "." t => span is_digit t
            | _ => (EmptyString, s2)
            end) as [fp s3].
  destruct (_ && _); [congruence |].
  destruct (exponent s3) as [z | e'] eqn:E; simpl; [discriminate |].
  intros H; injection H as <-; exact (exponent_Raise _ _ E).
Qed.

(** C6: when the number of runner execution times in the host log differs
    from the expected iteration count, the host runner raises
    ([AssertionError], or the [ValueError] of an unreadable compile time
    before it) and returns no metrics. *)
Theorem cpu_iteration_mismatch_raises (result_text : string) (n : Z) :
  Z.of_nat (List.length (findall1 CPU_LATENCY_REGEXP result_text)) <> n ->
  exists e, _run_compiler_benchmark_cpu result_text n = Raise e /\
            (e = AssertionError \/ e = ValueError).
Proof.
  intros H; apply Z.eqb_neq in H.
  unfold _run_compiler_benchmark_cpu; cbv zeta; rewrite H.
  destruct (findall1 CPU_COMPILE_TIME_REGEXP result_text) as [| m ms].
  - exists AssertionError; split; [reflexivity | left; reflexivity].
  - destruct (float_of_string m) as [x | e] eqn:Em.
    + exists AssertionError; split; [reflexivity | left; reflexivity].
    + exists e; split; [reflexivity | right; exact (float_of_string_Raise _ _ Em)].
Qed.

(** The host log of two runs read for three iterations. *)
Lemma cpu_iteration_mismatch_raises_witness :
  exists e, _run_compiler_benchmark_cpu cpu_log 3 = Raise e /\
            (e = AssertionError \/ e = ValueError).
Proof.
  apply (cpu_iteration_mismatch_raises cpu_log 3).
  vm_compute; discriminate.
Defined.

Lemma mapM_map {A B C : Type} (f : A -> result B) (g : B -> C) (l : list A)
    (ys : list C) :
  mapM (fun a => b <- f a ;; Ok (g b)) l = Ok ys ->
  exists xs, mapM f l = Ok xs /\ ys = map g xs.
Proof.
  revert ys; induction l as [| a l IH]; simpl; intros ys H.
  - injection H as <-; exists []; split; reflexivity.
  - apply bind_Ok in H as (y & Hy & H).
    apply bind_Ok in H as (ys' & Hys & H).
    injection H as <-.
    apply bind_Ok in Hy as (b & Hb & Hy); injection Hy as <-.
    destruct (IH ys' Hys) as (xs & Hxs & ->).
    exists (b :: xs); rewrite Hb, Hxs; split; reflexivity.
Qed.

(** What the host runner reports whenever it reports: the compile time is
    the number in the first match of the compile-time pattern, and the
    latency statistics are taken over the runner times times 1000. *)
Lemma cpu_metrics_of_matches (result_text : string) (n : Z) (m : string)
    (ms : list string) (d : dict) :
  findall1 CPU_COMPILE_TIME_REGEXP result_text = m :: ms ->
  _run_compiler_benchmark_cpu result_text n = Ok d ->
  exists c secs,
    float_of_string m = Ok c /\
    get "compile_time_s" d = Some (VFloat c) /\
    mapM float_of_string (findall1 CPU_LATENCY_REGEXP result_text) = Ok secs /\
    Z.of_nat (List.length secs) = n /\
    get "min_latency_ms" d = Some (min_default (map (fun x => fmul x 1000) secs)) /\
    get "max_latency_ms" d = Some (max_default (map (fun x => fmul x 1000) secs)).
Proof.
  intros Hm H.
  apply cpu_dict_shape in H
    as (c & latencies & mean & median & stddev & Hc & Hn & HL & _ & _ & _ & ->).
  rewrite Hm in Hc; apply bind_Ok in Hc as (x & Hx & Hc); injection Hc as <-.
  apply mapM_map in HL as (secs & Hsecs & ->).
  exists x, secs; splits; try solve [assumption | reflexivity].
  rewrite (mapM_length _ _ _ Hsecs); exact Hn.
Qed.

(** C8, as amended: when the pattern [... compiled and ran in ( .* )s.]
    (three characters, a blank, the words, a value, [s] and one more
    character) matches the host log, every metrics dictionary the runner
    returns has as [compile_time_s] the number in the first match, whatever
    the later ones, and its latency statistics are those of the matched
    runner times multiplied by 1000.  The scenario log, with a blank after
    the three dots, yields 1.23 and the statistics of [100; 120]. *)
Theorem cpu_compile_time_first_match :
  (forall result_text n m ms d,
     findall1 CPU_COMPILE_TIME_REGEXP result_text = m :: ms ->
     _run_compiler_benchmark_cpu result_text n = Ok d ->
     exists c secs,
       float_of_string m = Ok c /\
       get "compile_time_s" d = Some (VFloat c) /\
       mapM float_of_string (findall1 CPU_LATENCY_REGEXP result_text) = Ok secs /\
       Z.of_nat (List.length secs) = n /\
       get "min_latency_ms" d = Some (min_default (map (fun x => fmul x 1000) secs)) /\
       get "max_latency_ms" d = Some (max_default (map (fun x => fmul x 1000) secs))) /\
  findall1 CPU_COMPILE_TIME_REGEXP cpu_log = ["1.23"; "4.56"] /\
  mapM float_of_string (findall1 CPU_LATENCY_REGEXP cpu_log) = Ok [1 # 10; 3 # 25] /\
  map (fun x => fmul x 1000) [1 # 10; 3 # 25] = [100; 120] /\
  _run_compiler_benchmark_cpu cpu_log 2
  = Ok [ ("compile_time_s", VFloat (123 # 100));
         ("min_latency_ms", VFloat 100);
         ("max_latency_ms", VFloat 120);
         ("mean_latency_ms", VFloat 110);
         ("median_latency_ms", VFloat 110);
         ("stddev_latency_ms", VSqrt 200);
         ("benchmark_iterations", VInt 2) ].
Proof.
  split; [exact cpu_metrics_of_matches | evaluate].
Qed.

(** C8 as first stated fails on the scenario as the specification spells
    it: without a blank between the dots and [compiled] the compile-time
    pattern matches nowhere, and [compile_time_s] is [None], not 1.23. *)
Lemma cpu_spec_scenario_no_compile_time :
  findall1 CPU_COMPILE_TIME_REGEXP cpu_log_spec = [] /\
  _run_compiler_benchmark_cpu cpu_log_spec 2
  = Ok [ ("compile_time_s", VNone);
         ("min_latency_ms", VFloat 100);
         ("max_latency_ms", VFloat 120);
         ("mean_latency_ms", VFloat 110);
         ("median_latency_ms", VFloat 110);
         ("stddev_latency_ms", VSqrt 200);
         ("benchmark_iterations", VInt 2) ].
Proof. evaluate. Qed.

(** ** The iteration count *)

(** C9: in both runners the [benchmark_iterations] entry of the metrics
    dictionary is the expected iteration count that was passed in; the
    accelerator runner reports it also when a marker mismatch has emptied
    the latency list and every latency entry is [None], as for the log of
    two runs read for three iterations. *)
Theorem benchmark_iterations_echoed :
  (forall result_text n d,
     _run_compiler_benchmark_gpu result_text n = Ok d ->
     get "benchmark_iterations" d = Some (VInt n)) /\
  (forall result_text n d,
     _run_compiler_benchmark_cpu result_text n = Ok d ->
     get "benchmark_iterations" d = Some (VInt n)) /\
  (exists d,
     _parse_latencies gpu_log 3 = Ok [] /\
     _run_compiler_benchmark_gpu gpu_log 3 = Ok d /\
     get "benchmark_iterations" d = Some (VInt 3) /\
     latency_fields_absent d).
Proof.
  splits.
  - intros result_text n d H.
    apply gpu_dict_shape in H as (l & c & p & mean & median & stddev & H).
    decompose [and] H; subst d; reflexivity.
  - intros result_text n d H.
    apply cpu_dict_shape in H as (c & l & mean & median & stddev & H).
    decompose [and] H; subst d; reflexivity.
  - eexists; unfold latency_fields_absent; evaluate.
Qed.

(** The two-run logs of either kind, read for two iterations. *)
Lemma benchmark_iterations_echoed_witness :
  (exists d, _run_compiler_benchmark_gpu gpu_log 2 = Ok d /\
             get "benchmark_iterations" d = Some (VInt 2)) /\
  (exists d, _run_compiler_benchmark_cpu cpu_log 2 = Ok d /\
             get "benchmark_iterations" d = Some (VInt 2)).
Proof.
  split.
  - eexists; split; [vm_compute; reflexivity |].
    apply (proj1 benchmark_iterations_echoed gpu_log 2%Z); vm_compute; reflexivity.
  - eexists; split; [vm_compute; reflexivity |].
    apply (proj1 (proj2 benchmark_iterations_echoed) cpu_log 2%Z);
      vm_compute; reflexivity.
Defined.

(** ** Compile time without an announcement *)

Lemma match_at_literal_absent (s : string) (r : regex) (p : N) (text : string) :
  strip_prefix s text = None -> match_at (Cat (Lit s) r) p text = None.
Proof.
  intros H; unfold match_at; simpl; rewrite H; reflexivity.
Qed.

(** A pattern that opens with a literal finds nothing in a text that does
    not contain the literal. *)
Lemma finditer_from_literal_absent (s : string) (r : regex) (text : string) :
  contains s text = false ->
  forall p skip, finditer_from (Cat (Lit s) r) p skip text = [].
Proof.
  induction text as [| c text IH]; simpl contains; intros H p skip.
  - destruct (strip_prefix s "") eqn:E; [discriminate H |].
    destruct skip; simpl; [rewrite (match_at_literal_absent s r p "" E) |];
      reflexivity.
  - destruct (strip_prefix s (String c text)) eqn:E; [discriminate H |].
    destruct skip; simpl finditer_from.
    + rewrite (match_at_literal_absent s r p _ E); apply IH; exact H.
    + apply IH; exact H.
Qed.

Lemma gpu_compile_time_absent (raw_output : string) :
  contains "NVPTXCompiler::CompileTargetBinary - CompileToPtx" raw_output = false ->
  findall GPU_COMPILE_TIME_REGEXP raw_output = [] /\
  _parse_compile_time raw_output = Ok 0.
Proof.
  intros H.
  assert (E : findall GPU_COMPILE_TIME_REGEXP raw_output = []).
  { unfold findall, finditer, GPU_COMPILE_TIME_REGEXP.
    rewrite (finditer_from_literal_absent _ _ _ H); reflexivity. }
  split; [exact E |].
  unfold _parse_compile_time; cbv zeta; rewrite E; reflexivity.
Qed.

(** C10: an accelerator log that contains no compile-time announcement has
    nothing to sum, and its compile time is the number 0, in
    [_parse_compile_time] and in the metrics dictionary; the host runner,
    when its compile-time pattern matches nowhere, reports [None]. *)
Theorem compile_time_without_announcement :
  (forall raw_output,
     contains "NVPTXCompiler::CompileTargetBinary - CompileToPtx" raw_output = false ->
     _parse_compile_time raw_output = Ok 0) /\
  (forall result_text n d,
     contains "NVPTXCompiler::CompileTargetBinary - CompileToPtx" result_text = false ->
     _run_compiler_benchmark_gpu result_text n = Ok d ->
     get "compile_time_s" d = Some (VFloat 0)) /\
  (forall result_text n d,
     findall1 CPU_COMPILE_TIME_REGEXP result_text = [] ->
     _run_compiler_benchmark_cpu result_text n = Ok d ->
     get "compile_time_s" d = Some VNone).
Proof.
  splits.
  - intros raw_output H; exact (proj2 (gpu_compile_time_absent raw_output H)).
  - intros result_text n d Habsent H.
    apply gpu_dict_shape in H as (l & c & p & mean & median & stddev & H).
    destruct H as (_ & Hc & _ & _ & _ & ->).
    rewrite (proj2 (gpu_compile_time_absent result_text Habsent)) in Hc.
    injection Hc as <-; reflexivity.
  - intros result_text n d Habsent H.
    apply cpu_dict_shape in H as (c & l & mean & median & stddev & H).
    destruct H as (Hc & _ & _ & _ & _ & _ & ->).
    rewrite Habsent in Hc; injection Hc as <-; reflexivity.
Qed.

(** An accelerator log with a peak announcement only, and the host scenario
    without the blank, on which the compile-time pattern finds nothing. *)
Lemma compile_time_without_announcement_witness :
  _parse_compile_time gpu_log_no_runs = Ok 0 /\
  (exists d, _run_compiler_benchmark_gpu gpu_log_no_runs 0 = Ok d /\
             get "compile_time_s" d = Some (VFloat 0)) /\
  (exists d, _run_compiler_benchmark_cpu cpu_log_spec 2 = Ok d /\
             get "compile_time_s" d = Some VNone).
Proof.
  splits.
  - apply (proj1 compile_time_without_announcement gpu_log_no_runs).
    vm_compute; reflexivity.
  - eexists; split; [vm_compute; reflexivity |].
    apply (proj1 (proj2 compile_time_without_announcement) gpu_log_no_runs 0%Z);
      vm_compute; reflexivity.
  - eexists; split; [vm_compute; reflexivity |].
    apply (proj2 (proj2 compile_time_without_announcement) cpu_log_spec 2%Z);
      vm_compute; reflexivity.
Defined.

(** ** The batch *)

Section BatchProperties.

Variable subprocess_run : BenchmarkCase -> Z -> string.
Variable hlo_dump_exists : BenchmarkCase -> bool.

(** An accelerator class other than [gpu] and [cpu] has no parser. *)
Lemma _run_unsupported_accelerator (benchmark : BenchmarkCase) (iterations : Z) :
  String.eqb (bc_accelerator_type benchmark) "gpu" = false ->
  String.eqb (bc_accelerator_type benchmark) "cpu" = false ->
  _run subprocess_run benchmark iterations = Raise ValueError.
Proof.
  intros Hg Hc; unfold _run; cbv zeta; rewrite Hg, Hc; reflexivity.
Qed.

(** The loop over a batch that succeeds appends one result per benchmark,
    in order, after what the store held. *)
Lemma main_loop_all_succeed (benchmarks : list BenchmarkCase)
    (results : list BenchmarkResult) (iterations : Z) :
  Forall2 (fun b r => hlo_dump_exists b = true /\
                      _run subprocess_run b iterations = Ok r)
          benchmarks results ->
  forall output,
    main_loop subprocess_run hlo_dump_exists benchmarks iterations output
    = ((output ++ results)%list, Ok tt).
Proof.
  induction 1 as [| b r bs rs [Hdump Hrun] _ IH]; intros output; simpl.
  - rewrite app_nil_r; reflexivity.
  - rewrite Hdump, Hrun; simpl; unfold append_benchmark_result.
    rewrite IH, <- app_assoc; reflexivity.
Qed.

Lemma main_loop_stops (before after : list BenchmarkCase)
    (results : list BenchmarkResult) (failing : BenchmarkCase)
    (iterations : Z) (e : exception) :
  Forall2 (fun b r => hlo_dump_exists b = true /\
                      _run subprocess_run b iterations = Ok r)
          before results ->
  hlo_dump_exists failing = true ->
  _run subprocess_run failing iterations = Raise e ->
  forall output,
    main_loop subprocess_run hlo_dump_exists (before ++ failing :: after)
              iterations output
    = ((output ++ results)%list, Raise e).
Proof.
  induction 1 as [| b r bs rs [Hdump Hrun] _ IH]; intros Hd He output; simpl.
  - rewrite Hd, He, app_nil_r; reflexivity.
  - rewrite Hdump, Hrun; simpl; unfold append_benchmark_result.
    rewrite (IH Hd He), <- app_assoc; reflexivity.
Qed.

(** [main] on a selection that is not empty is the loop over it. *)
Lemma main_runs_loop (all_benchmarks : list BenchmarkCase)
    (name_pattern : string -> bool) (output : list BenchmarkResult)
    (iterations : Z) :
  filter (fun b => name_pattern (bc_name b)) all_benchmarks <> [] ->
  main subprocess_run hlo_dump_exists all_benchmarks name_pattern output iterations
  = main_loop subprocess_run hlo_dump_exists
              (filter (fun b => name_pattern (bc_name b)) all_benchmarks)
              iterations output.
Proof.
  unfold main; cbv zeta; intros H.
  destruct (filter _ all_benchmarks); [contradiction | reflexivity].
Qed.

End BatchProperties.

(** C7, as amended: the batch loop has no handler, so an error raised
    while one benchmark is processed (a parsing error, or the [ValueError]
    of an accelerator class without a parser) ends the loop with that error.
    The store then holds what it held before plus the results of the
    benchmarks that came before the failing one, in order; the benchmarks
    after it are not run.  A batch without an error appends every result. *)
Theorem batch_stops_at_first_error
    (subprocess_run : BenchmarkCase -> Z -> string)
    (hlo_dump_exists : BenchmarkCase -> bool)
    (before after : list BenchmarkCase) (results : list BenchmarkResult)
    (failing : BenchmarkCase) (iterations : Z) (e : exception)
    (output : list BenchmarkResult) :
  Forall2 (fun b r => hlo_dump_exists b = true /\
                      _run subprocess_run b iterations = Ok r)
          before results ->
  hlo_dump_exists failing = true ->
  _run subprocess_run failing iterations = Raise e ->
  main_loop subprocess_run hlo_dump_exists (before ++ failing :: after)
            iterations output
  = ((output ++ results)%list, Raise e) /\
  main_loop subprocess_run hlo_dump_exists before iterations output
  = ((output ++ results)%list, Ok tt).
Proof.
  intros Hbefore Hd He; split.
  - apply main_loop_stops; assumption.
  - apply main_loop_all_succeed; assumption.
Qed.

(** A host benchmark, then one for an unsupported accelerator class, then
    the host benchmark again: one result is stored and the loop ends with
    [ValueError]. *)
Lemma batch_stops_at_first_error_witness :
  main_loop batch_world (fun _ => true) ([cpu_case] ++ tpu_case :: [cpu_case]) 2 []
  = (([] ++ [cpu_case_result])%list, Raise ValueError) /\
  main_loop batch_world (fun _ => true) [cpu_case] 2 []
  = (([] ++ [cpu_case_result])%list, Ok tt).
Proof.
  apply (batch_stops_at_first_error batch_world (fun _ => true)
           [cpu_case] [cpu_case] [cpu_case_result] tpu_case 2%Z ValueError []).
  - constructor; [split; [reflexivity | vm_compute; reflexivity] | constructor].
  - reflexivity.
  - apply _run_unsupported_accelerator; reflexivity.
Defined.

(** C7 as first stated fails: in a batch of a benchmark for an unsupported
    accelerator class followed by a host benchmark that runs well on its
    own, the first error ends the loop and the store stays empty; the
    result of the second benchmark is never appended. *)
Lemma batch_aborts_on_unsupported_accelerator :
  _run batch_world tpu_case 2 = Raise ValueError /\
  _run batch_world cpu_case 2 = Ok cpu_case_result /\
  main_loop batch_world (fun _ => true) [tpu_case; cpu_case] 2 []
  = ([], Raise ValueError).
Proof. evaluate. Qed.

(* ================================================================== *)
(** * Further properties *)

(** ** Texts *)

Lemma append_nil_r (s : string) : s ++ "" = s.
Proof. induction s as [| c s IH]; simpl; [| rewrite IH]; reflexivity. Qed.

Lemma append_assoc (s t u : string) : (s ++ t) ++ u = s ++ t ++ u.
Proof. induction s as [| c s IH]; simpl; [| rewrite IH]; reflexivity. Qed.

Lemma length_append (s t : string) :
  String.length (s ++ t) = (String.length s + String.length t)%nat.
Proof. induction s as [| c s IH]; simpl; [| rewrite IH]; reflexivity. Qed.

Lemma substring_prefix (w t : string) :
  substring 0 (String.length w) (w ++ t) = w.
Proof.
  induction w as [| c w IH]; simpl.
  - destruct t; reflexivity.
  - rewrite IH; reflexivity.
Qed.

Lemma strip_prefix_append (p s r : string) :
  strip_prefix p s = Some r -> s = p ++ r.
Proof.
  revert s; induction p as [| a p IH]; simpl; intros s H.
  - injection H as ->; reflexivity.
  - destruct s as [| b s]; [discriminate H |].
    destruct (Ascii.eqb_spec a b) as [-> |]; [| discriminate H].
    f_equal; apply IH; exact H.
Qed.

Lemma strip_prefix_refl (p r : string) : strip_prefix p (p ++ r) = Some r.
Proof.
  induction p as [| a p IH]; simpl; [reflexivity |].
  rewrite Ascii.eqb_refl; exact IH.
Qed.

Lemma all_chars_append (p : ascii -> bool) (s t : string) :
  all_chars p (s ++ t) = all_chars p s && all_chars p t.
Proof.
  induction s as [| c s IH]; simpl; [reflexivity |].
  rewrite IH, andb_assoc; reflexivity.
Qed.

(** ** The matcher only reports what the pattern denotes *)

Lemma steps_refl_Star (r : regex) (st : state) : steps (Star r) st st.
Proof.
  exists "", []; splits; [reflexivity | simpl; lia | | constructor].
  rewrite app_nil_r; reflexivity.
Qed.

Lemma steps_Star_cons (r : regex) (st1 st2 st3 : state) :
  steps r st1 st2 -> steps (Star r) st2 st3 -> steps (Star r) st1 st3.
Proof.
  intros (w1 & c1 & Hr1 & Hp1 & Hc1 & Hd1) (w2 & c2 & Hr2 & Hp2 & Hc2 & Hd2).
  exists (w1 ++ w2), (c1 ++ c2)%list; splits.
  - rewrite Hr1, Hr2, append_assoc; reflexivity.
  - rewrite Hp2, Hp1, length_append; lia.
  - rewrite Hc2, Hc1, app_assoc; reflexivity.
  - constructor; assumption.
Qed.

Lemma star_sound (r : regex) (step : state -> list state) :
  (forall st st', In st' (step st) -> steps r st st') ->
  forall fuel st acc st',
    In st' (star step fuel st acc) -> steps (Star r) st st' \/ In st' acc.
Proof.
  intros Hstep; induction fuel as [| fuel IH]; intros st acc st'; simpl.
  - intros [<- | H]; [left; apply steps_refl_Star | right; exact H].
  - assert (Hl : forall x, In x (filter (fun x => (pos st <? pos x)%N) (step st)) ->
                           steps r st x).
    { intros x Hx; apply filter_In in Hx as [Hx _]; apply Hstep; exact Hx. }
    induction (filter (fun x => (pos st <? pos x)%N) (step st)) as [| x l IHl]; simpl.
    + intros [<- | H]; [left; apply steps_refl_Star | right; exact H].
    + intros H; apply IH in H as [H | H].
      * left; apply (steps_Star_cons r st x st'); [apply Hl; left; reflexivity | exact H].
      * apply IHl; [intros y Hy; apply Hl; right; exact Hy | exact H].
Qed.

Lemma exec_sound (r : regex) :
  forall st st', In st' (exec r st) -> steps r st st'.
Proof.
  induction r as [s | p | r1 IH1 r2 IH2 | r1 IH1 r2 IH2 | r IH | r IH |];
    intros st st'; simpl.
  - destruct (strip_prefix s (rest st)) as [rest' |] eqn:E; simpl;
      [| contradiction].
    intros [<- | []]; apply strip_prefix_append in E.
    exists s, []; cbn [pos rest caps]; splits;
      [exact E | reflexivity | rewrite app_nil_r; reflexivity | constructor].
  - destruct (rest st) as [| c rest'] eqn:E; simpl; [contradiction |].
    destruct (p c) eqn:Ep; simpl; [| contradiction].
    intros [<- | []]; exists (String c ""), []; cbn [pos rest caps]; splits;
      [exact E | simpl; lia | rewrite app_nil_r; reflexivity | constructor; exact Ep].
  - intros H; apply in_flat_map in H as (x & Hx & H).
    apply IH1 in Hx as (w1 & c1 & Hr1 & Hp1 & Hc1 & Hd1).
    apply IH2 in H as (w2 & c2 & Hr2 & Hp2 & Hc2 & Hd2).
    exists (w1 ++ w2), (c1 ++ c2)%list; splits.
    + rewrite Hr1, Hr2, append_assoc; reflexivity.
    + rewrite Hp2, Hp1, length_append; lia.
    + rewrite Hc2, Hc1, app_assoc; reflexivity.
    + constructor; assumption.
  - intros H; apply in_app_or in H as [H | H].
    + apply IH1 in H as (w & c & H1 & H2 & H3 & H4).
      exists w, c; splits; try assumption; apply D_Alt_l; exact H4.
    + apply IH2 in H as (w & c & H1 & H2 & H3 & H4).
      exists w, c; splits; try assumption; apply D_Alt_r; exact H4.
  - intros H; apply (star_sound r (exec r) IH) in H as [H | []]; exact H.
  - intros H; apply in_map_iff in H as (x & <- & Hx).
    apply IH in Hx as (w & c & H1 & H2 & H3 & H4).
    exists w, (c ++ [w])%list; cbn [pos rest caps]; splits; try assumption.
    + rewrite H3, H2, H1, <- app_assoc.
      replace (N.to_nat (pos st + N.of_nat (String.length w) - pos st))
        with (String.length w) by lia.
      rewrite substring_prefix; reflexivity.
    + constructor; exact H4.
  - destruct (pos st =? 0)%N; simpl; [| contradiction].
    intros [<- | []]; exists "", []; splits;
      [reflexivity | simpl; lia | rewrite app_nil_r; reflexivity | constructor].
Qed.

(** A reported match is a piece of the text that the pattern denotes, with
    the groups it denotes. *)
Lemma match_at_sound (r : regex) (p : N) (s : string) (m : match_obj) :
  match_at r p s = Some m ->
  (exists t, s = group0 m ++ t) /\ denotes r (group0 m) (groups m).
Proof.
  unfold match_at; destruct (exec r (State p s [])) as [| st l] eqn:E;
    [discriminate |].
  intros H; injection H as <-; cbn [group0 groups].
  assert (Hin : In st (exec r (State p s []))) by (rewrite E; left; reflexivity).
  apply exec_sound in Hin as (w & c & H1 & H2 & H3 & H4).
  cbn [pos rest caps app] in *; subst c.
  rewrite H2, H1.
  replace (N.to_nat (p + N.of_nat (String.length w) - p))
    with (String.length w) by lia.
  rewrite substring_prefix; split; [exists (rest st); reflexivity | exact H4].
Qed.

Lemma search_from_sound (r : regex) (s : string) :
  forall p m, search_from r p s = Some m ->
    (exists pre post, s = pre ++ group0 m ++ post) /\
    denotes r (group0 m) (groups m).
Proof.
  induction s as [| c s IH]; intros p m; simpl.
  - destruct (match_at r p "") as [m' |] eqn:E; [| discriminate].
    intros H; injection H as <-.
    apply match_at_sound in E as [(t & Ht) Hd]; split; [| exact Hd].
    exists "", t; exact Ht.
  - destruct (match_at r p (String c s)) as [m' |] eqn:E.
    + intros H; injection H as <-.
      apply match_at_sound in E as [(t & Ht) Hd]; split; [| exact Hd].
      exists "", t; exact Ht.
    + intros H; apply IH in H as [(pre & post & Hs) Hd]; split; [| exact Hd].
      exists (String c pre), post; simpl; rewrite Hs; reflexivity.
Qed.

Lemma finditer_from_sound (r : regex) (s : string) :
  forall p skip m, In m (finditer_from r p skip s) ->
    (exists pre post, s = pre ++ group0 m ++ post) /\
    denotes r (group0 m) (groups m).
Proof.
  induction s as [| c s IH]; intros p skip m; simpl.
  - destruct skip; [| contradiction].
    destruct (match_at r p "") as [m' |] eqn:E; [| contradiction].
    intros [<- | []].
    apply match_at_sound in E as [(t & Ht) Hd]; split; [| exact Hd].
    exists "", t; exact Ht.
  - assert (Htail : forall p' skip', In m (finditer_from r p' skip' s) ->
              (exists pre post, String c s = pre ++ group0 m ++ post) /\
              denotes r (group0 m) (groups m)).
    { intros p' skip' H; apply IH in H as [(pre & post & Hs) Hd]; split; [| exact Hd].
      exists (String c pre), post; simpl; rewrite Hs; reflexivity. }
    destruct skip; [| apply Htail].
    destruct (match_at r p (String c s)) as [m' |] eqn:E; [| apply Htail].
    intros [<- | H]; [| exact (Htail _ _ H)].
    apply match_at_sound in E as [(t & Ht) Hd]; split; [| exact Hd].
    exists "", t; exact Ht.
Qed.

(** ** Anchored patterns *)

Lemma match_at_Bol_later (r : regex) (p : N) (s : string) :
  (0 < p)%N -> match_at (Cat Bol r) p s = None.
Proof.
  intros Hp; unfold match_at; simpl.
  destruct (N.eqb_spec p 0) as [-> | _]; [lia | reflexivity].
Qed.

Lemma search_from_Bol_later (r : regex) (s : string) :
  forall p, (0 < p)%N -> search_from (Cat Bol r) p s = None.
Proof.
  induction s as [| c s IH]; intros p Hp; simpl;
    rewrite (match_at_Bol_later r p _ Hp); [reflexivity |].
  apply IH; lia.
Qed.

(** A pattern that opens with [^] is only tried at the start of the text. *)
Lemma search_Bol (r : regex) (s : string) :
  search (Cat Bol r) s = match_at (Cat Bol r) 0 s.
Proof.
  unfold search; destruct s as [| c s]; simpl;
    destruct (match_at (Cat Bol r) 0 _); try reflexivity.
  apply search_from_Bol_later; lia.
Qed.

(** ** Reading numbers *)

Lemma rev_string_append (s acc : string) :
  rev_string acc s = rev_string "" s ++ acc.
Proof.
  revert acc; induction s as [| c s IH]; intros acc; simpl; [reflexivity |].
  rewrite (IH (String c acc)), (IH (String c "")), append_assoc; reflexivity.
Qed.

Lemma rev_string_involutive (s : string) : rev_string "" (rev_string "" s) = s.
Proof.
  assert (H : forall s acc, rev_string acc (rev_string "" s) = s ++ acc).
  { clear s; induction s as [| c s IH]; intros acc; simpl; [reflexivity |].
    rewrite (rev_string_append s (String c "")).
    assert (Happ : forall a b acc, rev_string acc (a ++ b) = rev_string (rev_string acc a) b).
    { clear; induction a as [| x a IHa]; intros b acc; simpl; [reflexivity | apply IHa]. }
    rewrite Happ, IH; simpl; reflexivity. }
  rewrite H, append_nil_r; reflexivity.
Qed.

Lemma all_chars_rev_string (p : ascii -> bool) (s acc : string) :
  all_chars p (rev_string acc s) = all_chars p s && all_chars p acc.
Proof.
  revert acc; induction s as [| c s IH]; intros acc; simpl; [reflexivity |].
  rewrite IH; simpl; destruct (p c), (all_chars p s); reflexivity.
Qed.

Lemma lstrip_no_space (s : string) :
  all_chars (fun c => negb (is_space c)) s = true -> lstrip s = s.
Proof.
  destruct s as [| c s]; simpl; [reflexivity |].
  destruct (is_space c); [discriminate | reflexivity].
Qed.

(** [strip] leaves a text without blanks as it is. *)
Lemma strip_no_space (s : string) :
  all_chars (fun c => negb (is_space c)) s = true -> strip s = s.
Proof.
  intros H; unfold strip.
  rewrite (lstrip_no_space s H), lstrip_no_space, rev_string_involutive;
    [reflexivity |].
  rewrite all_chars_rev_string, H; reflexivity.
Qed.

Lemma is_digit_range (c : ascii) :
  is_digit c = true <-> (48 <= nat_of_ascii c <= 57)%nat.
Proof.
  unfold is_digit; rewrite andb_true_iff, !Nat.leb_le; reflexivity.
Qed.

Lemma digit_no_space (c : ascii) : is_digit c = true -> is_space c = false.
Proof.
  intros H; apply is_digit_range in H; unfold is_space.
  apply orb_false_iff; split; apply andb_false_iff.
  - right; apply Nat.leb_gt; lia.
  - right; apply Nat.leb_gt; lia.
Qed.

Lemma all_chars_impl (p q : ascii -> bool) (s : string) :
  (forall c, p c = true -> q c = true) ->
  all_chars p s = true -> all_chars q s = true.
Proof.
  intros Hpq; induction s as [| c s IH]; simpl; [reflexivity |].
  intros H; apply andb_true_iff in H as [Hc Hs].
  rewrite (Hpq c Hc), (IH Hs); reflexivity.
Qed.

Lemma digits_no_space (s : string) :
  all_chars is_digit s = true ->
  all_chars (fun c => negb (is_space c)) s = true.
Proof.
  apply all_chars_impl; intros c H; rewrite (digit_no_space c H); reflexivity.
Qed.

Lemma sign_digit (c : ascii) (s : string) :
  is_digit c = true -> sign (String c s) = (false, String c s).
Proof.
  intros H; apply is_digit_range in H.
  destruct c as [[] [] [] [] [] [] [] []]; vm_compute in H; try lia; reflexivity.
Qed.

Lemma span_digits (ds rest : string) :
  all_chars is_digit ds = true ->
  match rest with EmptyString => true | String c _ => negb (is_digit c) end = true ->
  span is_digit (ds ++ rest) = (ds, rest).
Proof.
  intros Hds Hrest; induction ds as [| c ds IH]; simpl in *.
  - destruct rest as [| c rest]; [reflexivity |].
    simpl; apply negb_true_iff in Hrest; rewrite Hrest; reflexivity.
  - apply andb_true_iff in Hds as [Hc Hds]; rewrite Hc, (IH Hds); reflexivity.
Qed.

Lemma span_all_digits (ds : string) :
  all_chars is_digit ds = true -> span is_digit ds = (ds, "").
Proof.
  intros Hds; pose proof (span_digits ds "" Hds eq_refl) as H.
  rewrite append_nil_r in H; exact H.
Qed.

Lemma digit_value_range (c : ascii) :
  is_digit c = true -> (0 <= digit_value c <= 9)%Z.
Proof.
  intros H; apply is_digit_range in H; unfold digit_value; lia.
Qed.

Lemma digits_value_range (ds : string) :
  all_chars is_digit ds = true ->
  forall acc, (0 <= acc)%Z ->
    (0 <= digits_value acc ds < (acc + 1) * 10 ^ Z.of_nat (String.length ds))%Z.
Proof.
  induction ds as [| c ds IH]; intros Hds acc Hacc.
  - simpl; lia.
  - simpl in Hds; apply andb_true_iff in Hds as [Hc Hds].
    apply digit_value_range in Hc.
    cbn [digits_value String.length].
    specialize (IH Hds (10 * acc + digit_value c)%Z ltac:(lia)).
    rewrite Nat2Z.inj_succ, Z.pow_succ_r by lia.
    split; [lia | nia].
Qed.

(** The builtin [int] reads a run of digits as the number it writes. *)
Lemma int_digits (ds : string) :
  all_chars is_digit ds = true -> ds <> "" ->
  int ds = Ok (digits_value 0 ds).
Proof.
  intros Hds Hne; unfold int.
  rewrite (strip_no_space ds (digits_no_space ds Hds)).
  destruct ds as [| c ds]; [contradiction |].
  simpl in Hds; apply andb_true_iff in Hds as [Hc Hds].
  rewrite (sign_digit c ds Hc), span_all_digits;
    [reflexivity | simpl; rewrite Hc, Hds; reflexivity].
Qed.

Lemma pow10_neg (k : nat) :
  (pow10 (0 - Z.of_nat k) == 1 / inject_Z (10 ^ Z.of_nat k))%Q.
Proof.
  destruct k as [| k].
  - reflexivity.
  - replace (0 - Z.of_nat (S k))%Z with (Z.neg (Pos.of_succ_nat k)) by lia.
    replace (Z.of_nat (S k)) with (Z.pos (Pos.of_succ_nat k)) by lia.
    unfold pow10; rewrite Qred_correct.
    unfold Qdiv; rewrite Qmult_1_l; reflexivity.
Qed.

Lemma pow10_pos_Z (k : nat) : (0 < 10 ^ Z.of_nat k)%Z.
Proof. apply Z.pow_pos_nonneg; lia. Qed.

(** The value of the decimal numeral [ip.fp]. *)
Lemma decimal_value_range (ip fp : string) :
  all_chars is_digit ip = true -> all_chars is_digit fp = true ->
  let v := fmul (of_int (digits_value (digits_value 0 ip) fp))
                (pow10 (0 - Z.of_nat (String.length fp))) in
  (0 <= v)%Q /\ (v < inject_Z (10 ^ Z.of_nat (String.length ip)))%Q.
Proof.
  intros Hip Hfp v; subst v.
  pose proof (digits_value_range ip Hip 0%Z ltac:(lia)) as [Hi0 Hi1].
  pose proof (digits_value_range fp Hfp (digits_value 0 ip) Hi0) as [Hm0 Hm1].
  pose proof (pow10_pos_Z (String.length fp)) as Hk.
  pose proof (pow10_pos_Z (String.length ip)) as Hki.
  unfold fmul, of_int; rewrite Qred_correct, pow10_neg.
  set (m := digits_value (digits_value 0 ip) fp) in *.
  set (d := (10 ^ Z.of_nat (String.length fp))%Z) in *.
  set (b := (10 ^ Z.of_nat (String.length ip))%Z) in *.
  assert (Hd : (0 < inject_Z d)%Q)
    by (change (inject_Z 0 < inject_Z d)%Q; rewrite <- Zlt_Qlt; exact Hk).
  assert (E : (inject_Z m * (1 / inject_Z d) == inject_Z m / inject_Z d)%Q)
    by (field; intros H; rewrite H in Hd; exact (Qlt_irrefl _ Hd)).
  rewrite E; split.
  - apply Qle_shift_div_l; [exact Hd |].
    rewrite Qmult_0_l; change (inject_Z 0 <= inject_Z m)%Q.
    rewrite <- Zle_Qle; exact Hm0.
  - apply Qlt_shift_div_r; [exact Hd |].
    rewrite <- inject_Z_mult, <- Zlt_Qlt; nia.
Qed.

(** The builtin [float] on digits, a point and digits. *)
Lemma float_of_decimal (ip fp : string) :
  all_chars is_digit ip = true -> ip <> "" -> all_chars is_digit fp = true ->
  float_of_string (ip ++ String "." fp)
  = Ok (fmul (of_int (digits_value (digits_value 0 ip) fp))
             (pow10 (0 - Z.of_nat (String.length fp)))).
Proof.
  intros Hip Hne Hfp; unfold float_of_string.
  rewrite strip_no_space.
  2:{ rewrite all_chars_append, (digits_no_space ip Hip); simpl.
      rewrite (digits_no_space fp Hfp); reflexivity. }
  destruct ip as [| c ip]; [contradiction |].
  pose proof Hip as Hip'; simpl in Hip'; apply andb_true_iff in Hip' as [Hc _].
  change (String c ip ++ String "." fp) with (String c (ip ++ String "." fp)).
  rewrite (sign_digit c _ Hc).
  change (String c (ip ++ String "." fp)) with (String c ip ++ String "." fp).
  rewrite (span_digits (String c ip) (String "." fp) Hip eq_refl).
  rewrite (span_all_digits fp Hfp); reflexivity.
Qed.

(** The builtin [float] on digits alone. *)
Lemma float_of_digits (ip : string) :
  all_chars is_digit ip = true -> ip <> "" ->
  float_of_string ip
  = Ok (fmul (of_int (digits_value (digits_value 0 ip) ""))
             (pow10 (0 - Z.of_nat (String.length "")))).
Proof.
  intros Hip Hne; unfold float_of_string.
  rewrite (strip_no_space ip (digits_no_space ip Hip)).
  destruct ip as [| c ip]; [contradiction |].
  pose proof Hip as Hip'; simpl in Hip'; apply andb_true_iff in Hip' as [Hc _].
  rewrite (sign_digit c _ Hc), (span_all_digits _ Hip); reflexivity.
Qed.

(** ** What the patterns of the script denote *)

Lemma denotes_Star_Set (p : ascii -> bool) (w : string) (c : list string) :
  denotes (Star (Set_ p)) w c -> c = [] /\ all_chars p w = true.
Proof.
  remember (Star (Set_ p)) as r eqn:Er; intros H.
  induction H as [| | | | | r' | r' w1 w2 c1 c2 H1 _ H2 IH2 | |];
    try discriminate Er.
  - split; reflexivity.
  - injection Er as ->.
    destruct (IH2 eq_refl) as [-> Hw2].
    inversion H1; subst; simpl.
    split; [reflexivity | apply andb_true_iff; split; assumption].
Qed.

(** One step of inversion on a derivation whose pattern is known. *)
Ltac invert_denotes :=
  repeat match goal with
  | H : denotes (Cat _ _) _ _ |- _ => inversion H; subst; clear H
  | H : denotes (Lit _) _ _ |- _ => inversion H; subst; clear H
  | H : denotes (Set_ _) _ _ |- _ => inversion H; subst; clear H
  | H : denotes (Group _) _ _ |- _ => inversion H; subst; clear H
  | H : denotes (Alt _ _) _ _ |- _ => inversion H; subst; clear H
  | H : denotes Bol _ _ |- _ => inversion H; subst; clear H
  | H : denotes (Star (Set_ _)) _ _ |- _ =>
      apply denotes_Star_Set in H; destruct H as [-> H]
  end.

(** The stamp pattern captures a date, two digits of hours, two of minutes
    and seconds written as two digits, a point and at least one digit. *)
Lemma LOG_TIME_REGEXP_denotes (w : string) (c : list string) :
  denotes LOG_TIME_REGEXP w c ->
  exists date h1 h2 m1 m2 s1 s2 fs,
    c = [date; String h1 (String h2 ""); String m1 (String m2 "");
         String s1 (String s2 "") ++ String "." fs] /\
    is_digit h1 = true /\ is_digit h2 = true /\
    is_digit m1 = true /\ is_digit m2 = true /\
    all_chars is_digit (String s1 (String s2 "")) = true /\
    all_chars is_digit fs = true /\ fs <> "".
Proof.
  unfold LOG_TIME_REGEXP, Plus, digit; cbn [Rep]; intros H.
  invert_denotes; simpl.
  repeat eexists; splits; try eassumption; try reflexivity.
  - simpl; apply andb_true_iff; split; [assumption |].
    apply andb_true_iff; split; [assumption | reflexivity].
  - simpl; apply andb_true_iff; split; eassumption.
  - discriminate.
Qed.

(** ** Stamps *)

Lemma two_digits_value (a b : ascii) :
  is_digit a = true -> is_digit b = true ->
  int (String a (String b "")) = Ok (digits_value 0 (String a (String b ""))) /\
  (0 <= digits_value 0 (String a (String b "")) <= 99)%Z.
Proof.
  intros Ha Hb.
  assert (H : all_chars is_digit (String a (String b "")) = true)
    by (simpl; rewrite Ha, Hb; reflexivity).
  split; [apply int_digits; [exact H | discriminate] |].
  pose proof (digits_value_range _ H 0%Z ltac:(lia)) as Hr.
  cbn [String.length] in Hr; change (10 ^ Z.of_nat 2)%Z with 100%Z in Hr; lia.
Qed.

(** A line on which the stamp pattern matches is read without an error:
    hours and minutes are two-digit numbers and the seconds lie below 100. *)
Lemma _parse_log_time_matched (line : string) (mt : match_obj) :
  search LOG_TIME_REGEXP line = Some mt ->
  exists (h m : Z) (s : float),
    (0 <= h <= 99)%Z /\ (0 <= m <= 99)%Z /\ (0 <= s)%Q /\ (s < 100)%Q /\
    _parse_log_time line = Ok (fmul 1000 (fadd (of_int (h * 3600 + m * 60)) s)).
Proof.
  intros Hs; pose proof Hs as Hd.
  apply search_from_sound in Hd as [_ Hd].
  apply LOG_TIME_REGEXP_denotes in Hd
    as (date & h1 & h2 & m1 & m2 & s1 & s2 & fs & Hg & Hh1 & Hh2 & Hm1 & Hm2
        & Hsec & Hfs & _).
  destruct (two_digits_value h1 h2 Hh1 Hh2) as [Eh Rh].
  destruct (two_digits_value m1 m2 Hm1 Hm2) as [Em Rm].
  pose proof (decimal_value_range _ _ Hsec Hfs) as [Rs0 Rs1]; cbv zeta in Rs0, Rs1.
  exists (digits_value 0 (String h1 (String h2 ""))),
         (digits_value 0 (String m1 (String m2 ""))),
         (fmul (of_int (digits_value (digits_value 0 (String s1 (String s2 ""))) fs))
               (pow10 (0 - Z.of_nat (String.length fs)))).
  splits; try assumption; try lia.
  unfold _parse_log_time; rewrite Hs, Hg, Eh, Em.
  rewrite (float_of_decimal _ fs Hsec ltac:(discriminate) Hfs); reflexivity.
Qed.

Lemma _parse_log_time_Raise_inv (line : string) (e : exception) :
  _parse_log_time line = Raise e ->
  e = AssertionError /\ match_at LOG_TIME_REGEXP 0 line = None.
Proof.
  intros H.
  destruct (search LOG_TIME_REGEXP line) as [mt |] eqn:Es.
  - destruct (_parse_log_time_matched line mt Es) as (h & m & s & _ & _ & _ & _ & E).
    rewrite E in H; discriminate H.
  - unfold _parse_log_time in H; rewrite Es in H; injection H as <-.
    split; [reflexivity |].
    unfold LOG_TIME_REGEXP in *; rewrite search_Bol in Es; exact Es.
Qed.



(** X2. When the stop stamp is not earlier in the day than the start stamp,
    no correction is applied: the elapsed time is their difference, and it
    is not negative. *)
Theorem elapsed_time_same_day (line1 line2 : string) (start end_ : float) :
  _parse_log_time line1 = Ok start ->
  _parse_log_time line2 = Ok end_ ->
  (start <= end_)%Q ->
  exists x,
    _parse_log_elapsed_time line1 line2 = Ok x /\
    (x == end_ - start)%Q /\ (0 <= x)%Q.
Proof.
  intros H1 H2 Hle; unfold _parse_log_elapsed_time; rewrite H1, H2; simpl.
  destruct (fltb end_ start) eqn:E.
  - apply fltb_true in E; lra.
  - eexists; split; [reflexivity |].
    unfold fsub, fadd; rewrite !Qred_correct; split; lra.
Qed.

Lemma elapsed_time_same_day_witness :
  exists x,
    _parse_log_elapsed_time gpu_start_1 gpu_stop_1 = Ok x /\
    (x == 36005250 - 36005000)%Q /\ (0 <= x)%Q.
Proof.
  apply (elapsed_time_same_day gpu_start_1 gpu_stop_1 36005000 36005250).
  - vm_compute; reflexivity.
  - vm_compute; reflexivity.
  - vm_compute; discriminate.
Defined.

Lemma mapM_Raise_inv {A B : Type} (f : A -> result B) (l : list A) (e : exception) :
  mapM f l = Raise e -> exists a, In a l /\ f a = Raise e.
Proof.
  induction l as [| a l IH]; simpl; [discriminate |].
  destruct (f a) as [b | e1] eqn:Ea; simpl.
  - destruct (mapM f l) as [bs | e2]; simpl; [discriminate |].
    intros H; injection H as ->.
    destruct (IH eq_refl) as (a' & Hin & Ha'); exists a'; split;
      [right; exact Hin | exact Ha'].
  - intros H; injection H as ->; exists a; split; [left; reflexivity | exact Ea].
Qed.

Lemma _parse_log_elapsed_time_Raise_inv (line1 line2 : string) (e : exception) :
  _parse_log_elapsed_time line1 line2 = Raise e ->
  _parse_log_time line1 = Raise e \/ _parse_log_time line2 = Raise e.
Proof.
  unfold _parse_log_elapsed_time.
  destruct (_parse_log_time line1) as [t1 | e1]; simpl.
  - destruct (_parse_log_time line2) as [t2 | e2]; simpl; [discriminate |].
    intros H; right; exact H.
  - intros H; left; exact H.
Qed.

Lemma _parse_latencies_Raise_full (raw_output : string) (n : Z) (e : exception) :
  _parse_latencies raw_output n = Raise e ->
  e = AssertionError /\
  List.length (findall GPU_LATENCY_START_REGEXP raw_output)
    = List.length (findall GPU_LATENCY_STOP_REGEXP raw_output) /\
  Z.of_nat (List.length (findall GPU_LATENCY_START_REGEXP raw_output)) = n /\
  exists line,
    (In line (findall GPU_LATENCY_START_REGEXP raw_output) \/
     In line (findall GPU_LATENCY_STOP_REGEXP raw_output)) /\
    match_at LOG_TIME_REGEXP 0 line = None.
Proof.
  unfold _parse_latencies; cbv zeta.
  destruct (Nat.eqb_spec (List.length (findall GPU_LATENCY_START_REGEXP raw_output))
                         (List.length (findall GPU_LATENCY_STOP_REGEXP raw_output)))
    as [Hlen | _]; simpl; [| discriminate].
  destruct (Z.eqb_spec (Z.of_nat (List.length (findall GPU_LATENCY_START_REGEXP raw_output))) n)
    as [Hn | _]; simpl; [| discriminate].
  intros H; apply mapM_Raise_inv in H as ([t1 t2] & Hin & H).
  apply _parse_log_elapsed_time_Raise_inv in H.
  assert (Hline : exists line,
             (In line (findall GPU_LATENCY_START_REGEXP raw_output) \/
              In line (findall GPU_LATENCY_STOP_REGEXP raw_output)) /\
             _parse_log_time line = Raise e).
  { destruct H as [H | H]; [exists t1 | exists t2]; (split; [| exact H]).
    - left; exact (in_combine_l _ _ _ _ Hin).
    - right; exact (in_combine_r _ _ _ _ Hin). }
  destruct Hline as (line & Hl & Hr).
  destruct (_parse_log_time_Raise_inv line e Hr) as [-> Hnone].
  splits; try assumption; try reflexivity.
  exists line; split; assumption.
Qed.

(** X3. [_parse_latencies] fails only by the assertion of the stamp parser,
    and only when the marker counts agree with each other and with the
    expected iterations while some marker line does not open with a stamp. *)
Theorem parse_latencies_failure (raw_output : string) (n : Z) (e : exception) :
  _parse_latencies raw_output n = Raise e ->
  e = AssertionError /\
  List.length (findall GPU_LATENCY_START_REGEXP raw_output)
    = List.length (findall GPU_LATENCY_STOP_REGEXP raw_output) /\
  Z.of_nat (List.length (findall GPU_LATENCY_START_REGEXP raw_output)) = n /\
  exists line,
    (In line (findall GPU_LATENCY_START_REGEXP raw_output) \/
     In line (findall GPU_LATENCY_STOP_REGEXP raw_output)) /\
    match_at LOG_TIME_REGEXP 0 line = None.
Proof. exact (_parse_latencies_Raise_full raw_output n e). Qed.

Lemma parse_latencies_failure_witness :
  AssertionError = AssertionError /\
  List.length (findall GPU_LATENCY_START_REGEXP gpu_log_no_stamps)
    = List.length (findall GPU_LATENCY_STOP_REGEXP gpu_log_no_stamps) /\
  Z.of_nat (List.length (findall GPU_LATENCY_START_REGEXP gpu_log_no_stamps)) = 1%Z /\
  exists line,
    (In line (findall GPU_LATENCY_START_REGEXP gpu_log_no_stamps) \/
     In line (findall GPU_LATENCY_STOP_REGEXP gpu_log_no_stamps)) /\
    match_at LOG_TIME_REGEXP 0 line = None.
Proof.
  apply (parse_latencies_failure gpu_log_no_stamps 1 AssertionError).
  vm_compute; reflexivity.
Defined.

(** X4. For an expected iteration count of zero or less, [_parse_latencies]
    returns the empty list whatever the log holds, and never fails. *)
Theorem parse_latencies_nonpositive (raw_output : string) (n : Z) :
  (n <= 0)%Z -> _parse_latencies raw_output n = Ok [].
Proof.
  intros Hn; unfold _parse_latencies; cbv zeta.
  destruct (Nat.eqb_spec (List.length (findall GPU_LATENCY_START_REGEXP raw_output))
                         (List.length (findall GPU_LATENCY_STOP_REGEXP raw_output)))
    as [Hlen | _]; simpl; [| reflexivity].
  destruct (Z.eqb_spec (Z.of_nat (List.length (findall GPU_LATENCY_START_REGEXP raw_output))) n)
    as [E | _]; simpl; [| reflexivity].
  destruct (findall GPU_LATENCY_START_REGEXP raw_output) as [| l ls];
    [reflexivity | simpl in E; lia].
Qed.

Lemma parse_latencies_nonpositive_witness :
  _parse_latencies gpu_log 0 = Ok [] /\ _parse_latencies gpu_log (-3) = Ok [].
Proof.
  split.
  - apply (parse_latencies_nonpositive gpu_log 0); lia.
  - apply (parse_latencies_nonpositive gpu_log (-3)); lia.
Defined.

(** ** Marker lines *)

Lemma marker_pattern_denotes (marker w : string) (c : list string) :
  denotes (Cat (Plus any) (Lit marker)) w c ->
  exists a,
    w = a ++ marker /\ a <> "" /\
    all_chars (fun ch => negb (Ascii.eqb ch newline)) a = true.
Proof.
  unfold Plus, any; intros H; invert_denotes.
  eexists; splits; [reflexivity | discriminate |].
  simpl; apply andb_true_iff; split; assumption.
Qed.

Lemma findall_sound (r : regex) (s m : string) :
  In m (findall r s) ->
  exists c, (exists pre post, s = pre ++ m ++ post) /\ denotes r m c.
Proof.
  unfold findall, finditer; intros H.
  apply in_map_iff in H as (mo & <- & H).
  apply finditer_from_sound in H as [Hs Hd].
  exists (groups mo); split; assumption.
Qed.

(** X5. Every text that counts as a start marker, and likewise as a stop
    marker, is a piece of the log that lies within one line, ends with the
    marker words, and has at least one character in front of them: marker
    words that open a line, with nothing before them, are not counted. *)
Theorem latency_marker_matches (raw_output : string) :
  (forall m, In m (findall GPU_LATENCY_START_REGEXP raw_output) ->
     exists pre a post,
       raw_output = pre ++ m ++ post /\
       m = a ++ "HloRunner: ExecuteOnDevices started" /\ a <> "" /\
       all_chars (fun ch => negb (Ascii.eqb ch newline)) m = true) /\
  (forall m, In m (findall GPU_LATENCY_STOP_REGEXP raw_output) ->
     exists pre a post,
       raw_output = pre ++ m ++ post /\
       m = a ++ "HloRunner: ExecuteOnDevices succeeded" /\ a <> "" /\
       all_chars (fun ch => negb (Ascii.eqb ch newline)) m = true).
Proof.
  split; intros m H; apply findall_sound in H as (c & (pre & post & Hs) & Hd);
    apply marker_pattern_denotes in Hd as (a & -> & Hne & Ha);
    exists pre, a, post; splits; try assumption; try reflexivity;
    rewrite all_chars_append, Ha; reflexivity.
Qed.

Lemma latency_marker_matches_witness :
  exists pre a post,
    gpu_log = pre ++ gpu_start_1 ++ post /\
    gpu_start_1 = a ++ "HloRunner: ExecuteOnDevices started" /\ a <> "" /\
    all_chars (fun ch => negb (Ascii.eqb ch newline)) gpu_start_1 = true.
Proof.
  apply (proj1 (latency_marker_matches gpu_log) gpu_start_1).
  assert (E : findall GPU_LATENCY_START_REGEXP gpu_log = [gpu_start_1; gpu_start_2])
    by (vm_compute; reflexivity).
  rewrite E; left; reflexivity.
Defined.

(** A line that consists of the marker words alone holds no marker. *)
Example marker_words_alone :
  findall GPU_LATENCY_START_REGEXP ("HloRunner: ExecuteOnDevices started" ++ nl) = [].
Proof. evaluate. Qed.

(** ** Durations and sizes *)

Lemma TIME_UNITS_positive (unit : string) (factor : float) :
  In (unit, factor) TIME_UNITS -> (0 < factor)%Q.
Proof.
  unfold TIME_UNITS; simpl; intros H.
  decompose [or] H; try contradiction;
    match goal with E : (_, _) = (_, _) |- _ => injection E as _ <- end;
    reflexivity.
Qed.

Lemma digits_float_nonneg (ip fp : string) :
  all_chars is_digit ip = true -> all_chars is_digit fp = true ->
  (0 <= fmul (of_int (digits_value (digits_value 0 ip) fp))
             (pow10 (0 - Z.of_nat (String.length fp))))%Q.
Proof.
  intros Hip Hfp; exact (proj1 (decimal_value_range ip fp Hip Hfp)).
Qed.

(** The duration pattern captures a decimal numeral that [float] reads as a
    number that is not negative, and one of the units of [TIME_UNITS]. *)
Lemma TIME_REGEXP_denotes (w : string) (c : list string) :
  denotes TIME_REGEXP w c ->
  exists num unit factor v,
    c = [num; unit] /\ w = "time: " ++ num ++ " " ++ unit /\
    In (unit, factor) TIME_UNITS /\
    TIME_UNITS_get unit TIME_UNITS = Ok factor /\
    float_of_string num = Ok v /\ (0 <= v)%Q.
Proof.
  unfold TIME_REGEXP, Plus, Opt, digit; intros H; invert_denotes.
  all: simpl app; cbn [append].
  all: eexists; eexists; eexists; eexists.
  all: split; [reflexivity |].
  all: split; [rewrite ?append_assoc; simpl; rewrite ?append_assoc; reflexivity |].
  all: split; [unfold TIME_UNITS; simpl; tauto |].
  all: split; [reflexivity |].
  all: match goal with
       | |- float_of_string (String ?d (?a ++ String "." ?b)) = _ /\ _ =>
           assert (Hip : all_chars is_digit (String d a) = true)
             by (simpl; apply andb_true_iff; split; assumption);
           assert (Hfp : all_chars is_digit b = true) by assumption;
           split;
           [ exact (float_of_decimal (String d a) b Hip ltac:(discriminate) Hfp)
           | exact (digits_float_nonneg (String d a) b Hip Hfp) ]
       | |- float_of_string (String ?d (?a ++ ?b)) = _ /\ _ =>
           assert (Hall : all_chars is_digit (String d a ++ b) = true)
             by (simpl; rewrite all_chars_append;
                 repeat match goal with Hb : _ = true |- _ => rewrite Hb end;
                 reflexivity);
           split;
           [ exact (float_of_digits (String d a ++ b) Hall ltac:(discriminate))
           | exact (digits_float_nonneg (String d a ++ b) "" Hall eq_refl) ]
       end.
Qed.

Lemma _parse_log_duration_matched (s : string) (mt : match_obj) :
  search TIME_REGEXP s = Some mt ->
  exists pre num unit post factor v,
    s = pre ++ ("time: " ++ num ++ " " ++ unit) ++ post /\
    In (unit, factor) TIME_UNITS /\ float_of_string num = Ok v /\
    (0 <= v)%Q /\ _parse_log_duration s = Ok (fmul v factor).
Proof.
  intros Es; pose proof Es as Hd.
  apply search_from_sound in Hd as [(pre & post & Hs) Hd].
  apply TIME_REGEXP_denotes in Hd
    as (num & unit & factor & v & Hg & Hw & Hin & Hget & Hv & Hv0).
  exists pre, num, unit, post, factor, v; splits; try assumption.
  - rewrite <- Hw; exact Hs.
  - unfold _parse_log_duration; rewrite Es, Hg; cbn [nth].
    rewrite Hget, Hv; reflexivity.
Qed.


Lemma _parse_log_duration_Ok_inv (s : string) (x : float) :
  _parse_log_duration s = Ok x ->
  exists pre num unit post factor v,
    s = pre ++ ("time: " ++ num ++ " " ++ unit) ++ post /\
    In (unit, factor) TIME_UNITS /\ float_of_string num = Ok v /\
    x = fmul v factor /\ (0 <= x)%Q.
Proof.
  intros H; destruct (search TIME_REGEXP s) as [mt |] eqn:Es.
  - destruct (_parse_log_duration_matched s mt Es)
      as (pre & num & unit & post & factor & v & Hs & Hin & Hv & Hv0 & E).
    rewrite E in H; injection H as <-.
    exists pre, num, unit, post, factor, v; splits; try assumption;
      try reflexivity.
    pose proof (TIME_UNITS_positive unit factor Hin) as Hf.
    unfold fmul; rewrite Qred_correct; apply Qmult_le_0_compat; [exact Hv0 |].
    apply Qlt_le_weak; exact Hf.
  - unfold _parse_log_duration in H; rewrite Es in H; discriminate H.
Qed.





(** ** Compile time *)

Lemma sum_from_nonneg (l : list float) :
  Forall (fun x => (0 <= x)%Q) l ->
  forall a, (0 <= a)%Q -> (0 <= fold_left fadd l a)%Q.
Proof.
  induction 1 as [| x l Hx _ IH]; intros a Ha; simpl; [exact Ha |].
  apply IH; unfold fadd; rewrite Qred_correct; lra.
Qed.

Lemma mapM_Forall {A B : Type} (f : A -> result B) (P : B -> Prop) (l : list A)
    (bs : list B) :
  (forall a b, f a = Ok b -> P b) -> mapM f l = Ok bs -> Forall P bs.
Proof.
  intros HP H; apply mapM_Forall2 in H.
  induction H as [| a b l bs Hab _ IH]; constructor; [exact (HP a b Hab) | exact IH].
Qed.


Lemma _parse_compile_time_nonneg (raw_output : string) (x : float) :
  _parse_compile_time raw_output = Ok x -> (0 <= x)%Q.
Proof.
  unfold _parse_compile_time; cbv zeta; intros H.
  apply bind_Ok in H as (ds & Hds & H); injection H as <-.
  assert (Hall : Forall (fun x => (0 <= x)%Q) ds).
  { apply (mapM_Forall _parse_log_duration _ _ ds) with (2 := Hds).
    intros a b Hab.
    destruct (_parse_log_duration_Ok_inv a b Hab)
      as (pre & num & unit & post & factor & v & _ & _ & _ & _ & Hb); exact Hb. }
  unfold fmul; rewrite Qred_correct.
  apply Qmult_le_0_compat; [| discriminate].
  apply sum_from_nonneg; [exact Hall | discriminate].
Qed.


(** ** Peak memory *)

(** Greedy repetition of a character class takes the whole run first. *)
Lemma star_Set_greedy (p : ascii -> bool) (ds rest' : string) (cs : list string) :
  all_chars p ds = true ->
  match rest' with EmptyString => true | String c _ => negb (p c) end = true ->
  forall fuel pos0 acc,
    (String.length ds <= fuel)%nat ->
    exists tl,
      star (exec (Set_ p)) fuel (State pos0 (ds ++ rest') cs) acc
      = State (pos0 + N.of_nat (String.length ds)) rest' cs :: tl.
Proof.
  intros Hds Hrest.
  set (step := exec (Set_ p)).
  assert (Hstep : forall st,
             step st = match rest st with
                       | EmptyString => []
                       | String c r =>
                           if p c then [State (N.succ (pos st)) r (caps st)] else []
                       end) by reflexivity.
  clearbody step.
  induction ds as [| d ds IH]; intros fuel pos0 acc Hfuel.
  - cbn [append String.length N.of_nat]; rewrite N.add_0_r.
    destruct fuel as [| fuel]; [exists acc; reflexivity |].
    exists acc; cbn [star]; rewrite Hstep; cbn [rest].
    destruct rest' as [| c rest']; [reflexivity |].
    apply negb_true_iff in Hrest; rewrite Hrest; reflexivity.
  - simpl in Hds; apply andb_true_iff in Hds as [Hd Hds].
    destruct fuel as [| fuel]; [simpl in Hfuel; lia |].
    cbn [append star]; rewrite Hstep; cbn [rest pos caps]; rewrite Hd.
    cbn [filter pos].
    replace (pos0 <? N.succ pos0)%N with true by (symmetry; apply N.ltb_lt; lia).
    cbn [fold_right].
    destruct (IH Hds fuel (N.succ pos0) (State pos0 (String d (ds ++ rest')) cs :: acc))
      as (tl & E); [simpl in Hfuel; lia |].
    exists tl; rewrite E; f_equal; f_equal; cbn [String.length]; lia.
Qed.

Lemma exec_Star_Set_greedy (p : ascii -> bool) (ds rest' : string)
    (pos0 : N) (cs : list string) :
  all_chars p ds = true ->
  match rest' with EmptyString => true | String c _ => negb (p c) end = true ->
  exists tl,
    exec (Star (Set_ p)) (State pos0 (ds ++ rest') cs)
    = State (pos0 + N.of_nat (String.length ds)) rest' cs :: tl.
Proof.
  intros Hds Hrest; cbn [exec rest].
  apply star_Set_greedy; [exact Hds | exact Hrest |].
  rewrite length_append; lia.
Qed.

Lemma first_of_Star_Set (p : ascii -> bool) (ds rest' : string)
    (pos0 : N) (cs : list string) :
  all_chars p ds = true ->
  match rest' with EmptyString => true | String c _ => negb (p c) end = true ->
  first_of (Star (Set_ p)) (State pos0 (ds ++ rest') cs)
           (State (pos0 + N.of_nat (String.length ds)) rest' cs).
Proof. apply exec_Star_Set_greedy. Qed.

Lemma first_of_Lit (s t : string) (pos0 : N) (cs : list string) :
  first_of (Lit s) (State pos0 (s ++ t) cs)
           (State (pos0 + N.of_nat (String.length s)) t cs).
Proof.
  exists []; cbn [exec rest pos caps]; rewrite strip_prefix_refl; reflexivity.
Qed.

Lemma first_of_Set (p : ascii -> bool) (c : ascii) (t : string) (pos0 : N)
    (cs : list string) :
  p c = true ->
  first_of (Set_ p) (State pos0 (String c t) cs) (State (N.succ pos0) t cs).
Proof.
  intros Hc; exists []; cbn [exec rest pos caps]; rewrite Hc; reflexivity.
Qed.

Lemma first_of_Cat (r1 r2 : regex) (st st1 st2 : state) :
  first_of r1 st st1 -> first_of r2 st1 st2 -> first_of (Cat r1 r2) st st2.
Proof.
  intros (tl1 & E1) (tl2 & E2); unfold first_of; cbn [exec]; rewrite E1;
    cbn [flat_map].
  rewrite E2; eexists; reflexivity.
Qed.



Lemma first_of_Group (r : regex) (st st' : state) :
  first_of r st st' ->
  first_of (Group r) st
    (State (pos st') (rest st')
           (caps st' ++ [substring 0 (N.to_nat (pos st' - pos st)) (rest st)])).
Proof.
  intros (tl & E); unfold first_of; cbn [exec]; rewrite E; eexists; reflexivity.
Qed.

Lemma first_of_match_at (r : regex) (p : N) (s : string) (st' : state) :
  first_of r (State p s []) st' ->
  match_at r p s
  = Some (Match p (pos st') (substring 0 (N.to_nat (pos st' - p)) s) (caps st')).
Proof. intros (tl & E); unfold match_at; rewrite E; reflexivity. Qed.

Lemma search_from_skip (r : regex) (p : N) (c : ascii) (s : string) :
  match_at r p (String c s) = None ->
  search_from r p (String c s) = search_from r (N.succ p) s.
Proof. intros H; simpl; rewrite H; reflexivity. Qed.

Lemma search_from_hit (r : regex) (p : N) (s : string) (mt : match_obj) :
  match_at r p s = Some mt -> search_from r p s = Some mt.
Proof. intros H; destruct s; simpl; rewrite H; reflexivity. Qed.

Lemma substring_prefix_nat (n : nat) (w t : string) :
  n = String.length w -> substring 0 n (w ++ t) = w.
Proof. intros ->; apply substring_prefix. Qed.

(** The size pattern, tried where a blank, digits and [ bytes] stand,
    captures the digits. *)
Lemma match_at_SIZE_REGEXP (p : N) (ds tail : string) :
  all_chars is_digit ds = true -> ds <> "" ->
  exists mt,
    match_at SIZE_REGEXP p (" " ++ ds ++ " bytes" ++ tail) = Some mt /\
    groups mt = [ds].
Proof.
  intros Hds Hne; destruct ds as [| d ds]; [contradiction |].
  simpl in Hds; apply andb_true_iff in Hds as [Hd Hds].
  eexists; split.
  - apply first_of_match_at.
    unfold SIZE_REGEXP, Plus, digit.
    eapply first_of_Cat; [apply first_of_Lit |].
    eapply first_of_Cat.
    + apply first_of_Group.
      eapply first_of_Cat; [apply (first_of_Set is_digit d _ _ _ Hd) |].
      apply (first_of_Star_Set is_digit ds (" bytes" ++ tail) _ _ Hds eq_refl).
    + cbn [pos rest caps]; apply first_of_Lit.
  - cbn [groups caps pos rest app].
    f_equal; apply (substring_prefix_nat _ (String d ds)); cbn [String.length]; lia.
Qed.

(** The peak pattern matches the words, a run of digits and [ bytes for
    GPU]. *)
Lemma GPU_PEAK_MEMORY_REGEXP_denotes (w : string) (c : list string) :
  denotes GPU_PEAK_MEMORY_REGEXP w c ->
  exists ds,
    w = "New Peak memory usage of " ++ ds ++ " bytes for GPU" /\
    all_chars is_digit ds = true /\ ds <> "".
Proof.
  unfold GPU_PEAK_MEMORY_REGEXP, Plus, digit; intros H; invert_denotes.
  match goal with
  | Hc : is_digit ?d = true, Hw : all_chars is_digit ?ds = true |- _ =>
      exists (String d ds); splits; [simpl; reflexivity | | discriminate];
      simpl; rewrite Hc, Hw; reflexivity
  end.
Qed.

(** The size parser reads every peak announcement: the blank in front of
    the digits is the first place where the size pattern matches. *)
Lemma _parse_log_size_peak (ds : string) :
  all_chars is_digit ds = true -> ds <> "" ->
  _parse_log_size ("New Peak memory usage of " ++ ds ++ " bytes for GPU")
  = Ok (fmul (fmul (of_int (digits_value 0 ds)) 1) (1 # 1000000)).
Proof.
  intros Hds Hne.
  destruct (match_at_SIZE_REGEXP 24 ds " for GPU" Hds Hne) as (mt & Hmt & Hg).
  apply search_from_hit in Hmt; cbn [append] in Hmt.
  unfold _parse_log_size, search; cbn [append].
  do 24 (rewrite search_from_skip by reflexivity).
  change (N.succ (N.succ (N.succ (N.succ (N.succ (N.succ (N.succ (N.succ
          (N.succ (N.succ (N.succ (N.succ (N.succ (N.succ (N.succ (N.succ
          (N.succ (N.succ (N.succ (N.succ (N.succ (N.succ (N.succ (N.succ
          0))))))))))))))))))))))))%N with 24%N.
  rewrite Hmt, Hg; cbn [nth].
  rewrite (float_of_digits ds Hds Hne); reflexivity.
Qed.

Lemma last_In {A : Type} (l : list A) (d : A) : l <> [] -> In (last l d) l.
Proof.
  induction l as [| a l IH]; [contradiction |]; intros _.
  destruct l as [| b l]; [left; reflexivity |].
  right; apply IH; discriminate.
Qed.

Lemma _parse_peak_memory_matched (raw_output : string) :
  findall GPU_PEAK_MEMORY_REGEXP raw_output <> [] ->
  exists ds,
    last (findall GPU_PEAK_MEMORY_REGEXP raw_output) ""
    = "New Peak memory usage of " ++ ds ++ " bytes for GPU" /\
    all_chars is_digit ds = true /\
    _parse_peak_memory raw_output
    = Ok (fmul (fmul (of_int (digits_value 0 ds)) 1) (1 # 1000000)).
Proof.
  intros Hne.
  pose proof (last_In (findall GPU_PEAK_MEMORY_REGEXP raw_output) "" Hne) as Hin.
  apply findall_sound in Hin as (c & _ & Hd).
  apply GPU_PEAK_MEMORY_REGEXP_denotes in Hd as (ds & Hlast & Hds & Hds').
  exists ds; splits; try assumption.
  unfold _parse_peak_memory; cbv zeta.
  destruct (findall GPU_PEAK_MEMORY_REGEXP raw_output) as [| m ms] eqn:E;
    [contradiction |].
  cbn [is_nil negb assert_ bind]; rewrite Hlast.
  apply _parse_log_size_peak; assumption.
Qed.

Lemma _parse_peak_memory_Raise_inv (raw_output : string) (e : exception) :
  _parse_peak_memory raw_output = Raise e ->
  e = AssertionError /\ findall GPU_PEAK_MEMORY_REGEXP raw_output = [].
Proof.
  intros H.
  destruct (findall GPU_PEAK_MEMORY_REGEXP raw_output) as [| m ms] eqn:E.
  - unfold _parse_peak_memory in H; cbv zeta in H; rewrite E in H.
    injection H as <-; split; reflexivity.
  - destruct (_parse_peak_memory_matched raw_output) as (ds & _ & _ & Hok);
      [rewrite E; discriminate |].
    rewrite Hok in H; discriminate H.
Qed.

(** X9. [_parse_peak_memory] fails, by its assertion, exactly when the log
    holds no peak announcement.  Otherwise it returns the number of bytes
    of the last announcement divided by a million: the size parser never
    fails on an announcement. *)
Theorem parse_peak_memory_last (raw_output : string) :
  (findall GPU_PEAK_MEMORY_REGEXP raw_output = [] ->
   _parse_peak_memory raw_output = Raise AssertionError) /\
  (forall e, _parse_peak_memory raw_output = Raise e ->
             e = AssertionError /\ findall GPU_PEAK_MEMORY_REGEXP raw_output = []) /\
  (findall GPU_PEAK_MEMORY_REGEXP raw_output <> [] ->
   exists ds x,
     last (findall GPU_PEAK_MEMORY_REGEXP raw_output) ""
     = "New Peak memory usage of " ++ ds ++ " bytes for GPU" /\
     _parse_peak_memory raw_output = Ok x /\
     (x == inject_Z (digits_value 0 ds) / 1000000)%Q).
Proof.
  splits.
  - intros E; unfold _parse_peak_memory; cbv zeta; rewrite E; reflexivity.
  - exact (_parse_peak_memory_Raise_inv raw_output).
  - intros Hne.
    destruct (_parse_peak_memory_matched raw_output Hne) as (ds & Hlast & _ & Hok).
    eexists ds, _; splits; [exact Hlast | exact Hok |].
    unfold fmul, of_int; rewrite !Qred_correct; field.
Qed.

Lemma parse_peak_memory_last_witness :
  exists ds x,
    last (findall GPU_PEAK_MEMORY_REGEXP gpu_log) ""
    = "New Peak memory usage of " ++ ds ++ " bytes for GPU" /\
    _parse_peak_memory gpu_log = Ok x /\
    (x == inject_Z (digits_value 0 ds) / 1000000)%Q.
Proof.
  apply (proj2 (proj2 (parse_peak_memory_last gpu_log))).
  assert (E : findall GPU_PEAK_MEMORY_REGEXP gpu_log
              = ["New Peak memory usage of 1000000 bytes for GPU";
                 "New Peak memory usage of 2500000 bytes for GPU"])
    by (vm_compute; reflexivity).
  rewrite E; discriminate.
Defined.

(** ** The runners: when they fail and when they return *)



















(** ** Summary statistics bracket the samples *)












(** ** The layout of the metrics records *)

Lemma _parse_peak_memory_nonneg (raw_output : string) (p : float) :
  _parse_peak_memory raw_output = Ok p -> (0 <= p)%Q.
Proof.
  intros H.
  destruct (findall GPU_PEAK_MEMORY_REGEXP raw_output) as [| m ms] eqn:E.
  - unfold _parse_peak_memory in H; cbv zeta in H; rewrite E in H; discriminate H.
  - destruct (_parse_peak_memory_matched raw_output) as (ds & _ & Hds & Hok);
      [rewrite E; discriminate |].
    rewrite Hok in H; injection H as <-.
    pose proof (digits_value_range ds Hds 0%Z ltac:(lia)) as [H0 _].
    assert (Hq : (0 <= inject_Z (digits_value 0 ds))%Q)
      by (change 0%Q with (inject_Z 0); rewrite <- Zle_Qle; exact H0).
    unfold fmul, of_int; rewrite !Qred_correct.
    set (v := inject_Z (digits_value 0 ds)) in *; clearbody v.
    assert (E1 : (v * 1 * (1 # 1000000) == v / 1000000)%Q) by field.
    rewrite E1; apply Qle_shift_div_l; [reflexivity | lra].
Qed.

Lemma gpu_dict_entries (result_text : string) (n : Z) (d : dict) :
  _run_compiler_benchmark_gpu result_text n = Ok d ->
  exists latencies c p mean median stddev,
    _parse_compile_time result_text = Ok c /\
    _parse_peak_memory result_text = Ok p /\
    d = [ ("compile_time_s", VFloat c);
          ("min_latency_ms", min_default latencies);
          ("max_latency_ms", max_default latencies);
          ("mean_latency_ms", mean);
          ("median_latency_ms", median);
          ("stddev_latency_ms", stddev);
          ("benchmark_iterations", VInt n);
          ("device_memory_peak_mb", VFloat p) ].
Proof.
  unfold _run_compiler_benchmark_gpu; intros H.
  apply bind_Ok in H as (latencies & _ & H).
  apply bind_Ok in H as (c & Hc & H).
  apply bind_Ok in H as (p & Hp & H).
  apply bind_Ok in H as (mean & _ & H).
  apply bind_Ok in H as (median & _ & H).
  apply bind_Ok in H as (stddev & _ & H).
  injection H as <-.
  exists latencies, c, p, mean, median, stddev; splits;
    solve [assumption | reflexivity].
Qed.

(** X13. A record of the accelerator runner holds eight entries, in a fixed
    order, with a compile time and a peak memory that are numbers and not
    negative.  A record of the host runner holds the first seven only: it
    never has a [device_memory_peak_mb] entry. *)
Theorem metrics_record_layout :
  (forall result_text n d,
     _run_compiler_benchmark_gpu result_text n = Ok d ->
     map fst d
     = ["compile_time_s"; "min_latency_ms"; "max_latency_ms";
        "mean_latency_ms"; "median_latency_ms"; "stddev_latency_ms";
        "benchmark_iterations"; "device_memory_peak_mb"] /\
     exists c p,
       get "compile_time_s" d = Some (VFloat c) /\ (0 <= c)%Q /\
       get "device_memory_peak_mb" d = Some (VFloat p) /\ (0 <= p)%Q) /\
  (forall result_text n d,
     _run_compiler_benchmark_cpu result_text n = Ok d ->
     map fst d
     = ["compile_time_s"; "min_latency_ms"; "max_latency_ms";
        "mean_latency_ms"; "median_latency_ms"; "stddev_latency_ms";
        "benchmark_iterations"] /\
     get "device_memory_peak_mb" d = None).
Proof.
  split; intros result_text n d H.
  - apply gpu_dict_entries in H as (l & c & p & mean & median & stddev & Hc & Hp & ->).
    split; [reflexivity |].
    exists c, p; splits; try reflexivity.
    + exact (_parse_compile_time_nonneg _ _ Hc).
    + exact (_parse_peak_memory_nonneg _ _ Hp).
  - apply cpu_dict_shape in H as (c & l & mean & median & stddev & H).
    decompose [and] H; subst d; split; reflexivity.
Qed.

Lemma metrics_record_layout_witness :
  (exists d, _run_compiler_benchmark_gpu gpu_log 2 = Ok d /\
             List.length (map fst d) = 8%nat) /\
  (exists d, _run_compiler_benchmark_cpu cpu_log 2 = Ok d /\
             get "device_memory_peak_mb" d = None).
Proof.
  split.
  - eexists; split; [vm_compute; reflexivity |].
    rewrite (proj1 (proj1 metrics_record_layout gpu_log 2%Z _
                      ltac:(vm_compute; reflexivity))); reflexivity.
  - eexists; split; [vm_compute; reflexivity |].
    apply (proj2 (proj2 metrics_record_layout cpu_log 2%Z _
                    ltac:(vm_compute; reflexivity))).
Defined.

(** ** The batch: the store only grows *)

Section BatchInvariants.

Variable subprocess_run : BenchmarkCase -> Z -> string.
Variable hlo_dump_exists : BenchmarkCase -> bool.

Lemma _run_definition (benchmark : BenchmarkCase) (iterations : Z)
    (r : BenchmarkResult) :
  _run subprocess_run benchmark iterations = Ok r -> definition r = benchmark.
Proof.
  unfold _run; cbv zeta; intros H.
  apply bind_Ok in H as (m & _ & H); injection H as <-; reflexivity.
Qed.

Lemma main_loop_appends (benchmarks : list BenchmarkCase) (iterations : Z) :
  forall output,
  exists results,
    fst (main_loop subprocess_run hlo_dump_exists benchmarks iterations output)
    = (output ++ results)%list /\
    map definition results = firstn (List.length results) benchmarks /\
    (snd (main_loop subprocess_run hlo_dump_exists benchmarks iterations output)
     = Ok tt <-> List.length results = List.length benchmarks).
Proof.
  induction benchmarks as [| b bs IH]; intros output; cbn [main_loop].
  - exists []; cbn [fst snd]; rewrite app_nil_r; splits; try reflexivity.
    split; reflexivity.
  - destruct (hlo_dump_exists b); cbn [negb].
    2:{ exists []; cbn [fst snd]; rewrite app_nil_r; splits; try reflexivity.
        split; discriminate. }
    destruct (_run subprocess_run b iterations) as [r | e] eqn:Er.
    2:{ exists []; cbn [fst snd]; rewrite app_nil_r; splits; try reflexivity.
        split; discriminate. }
    destruct (IH (append_benchmark_result output r)) as (results & Hfst & Hdef & Hsnd).
    exists (r :: results); splits.
    + rewrite Hfst; unfold append_benchmark_result; rewrite <- app_assoc; reflexivity.
    + cbn [map List.length firstn]; rewrite Hdef, (_run_definition b iterations r Er);
        reflexivity.
    + rewrite Hsnd; cbn [List.length]; split; intros H; lia.
Qed.

End BatchInvariants.

(** X14. Whatever happens in a batch, [main] leaves the records that were
    in the store untouched and in front; what it adds are the results of a
    leading part of the selected benchmarks, in their order, each carrying
    its benchmark as identity.  It ends without error exactly when some
    benchmark was selected and every selected one got its result. *)
Theorem main_only_appends
    (subprocess_run : BenchmarkCase -> Z -> string)
    (hlo_dump_exists : BenchmarkCase -> bool)
    (all_benchmarks : list BenchmarkCase) (name_pattern : string -> bool)
    (output : list BenchmarkResult) (iterations : Z) :
  let selected := filter (fun b => name_pattern (bc_name b)) all_benchmarks in
  let outcome :=
    main subprocess_run hlo_dump_exists all_benchmarks name_pattern output
         iterations in
  exists results,
    fst outcome = (output ++ results)%list /\
    map definition results = firstn (List.length results) selected /\
    (snd outcome = Ok tt <->
     selected <> [] /\ List.length results = List.length selected).
Proof.
  intros selected outcome; subst outcome; unfold main; cbv zeta; fold selected.
  destruct selected as [| b bs] eqn:E; cbn [is_nil].
  - exists []; cbn [fst snd]; rewrite app_nil_r; splits; try reflexivity.
    split; [discriminate | intros [H _]; contradiction].
  - destruct (main_loop_appends subprocess_run hlo_dump_exists (b :: bs)
                iterations output) as (results & Hfst & Hdef & Hsnd).
    exists results; splits; [exact Hfst | exact Hdef |].
    rewrite Hsnd; split; [intros H; split; [discriminate | exact H] | intros [_ H]; exact H].
Qed.

(** ** Reading a duration token *)








(** ** The host patterns *)

Lemma findall1_sound (r : regex) (s g : string) :
  In g (findall1 r s) ->
  exists w c, (exists pre post, s = pre ++ w ++ post) /\
              denotes r w c /\ g = hd "" c.
Proof.
  unfold findall1, finditer; intros H.
  apply in_map_iff in H as (mo & <- & H).
  apply finditer_from_sound in H as [Hs Hd].
  exists (group0 mo), (groups mo); splits; [exact Hs | exact Hd | reflexivity].
Qed.

Lemma CPU_LATENCY_REGEXP_denotes (w : string) (c : list string) :
  denotes CPU_LATENCY_REGEXP w c ->
  exists name g ch,
    c = [g] /\
    w = "execution time for runner " ++ name ++ ": " ++ g ++ "s" ++ String ch "" /\
    all_chars is_alpha name = true /\
    all_chars (fun x => negb (Ascii.eqb x newline)) (g ++ String ch "") = true.
Proof.
  unfold CPU_LATENCY_REGEXP, alpha, any; intros H; invert_denotes.
  match goal with
  | Hn : all_chars is_alpha ?name = true,
    Hg : all_chars _ ?g = true, Hc : negb (Ascii.eqb ?ch newline) = true |- _ =>
      exists name, g, ch; splits;
      [ reflexivity
      | reflexivity
      | exact Hn
      | rewrite all_chars_append, Hg; simpl; rewrite Hc; reflexivity ]
  end.
Qed.

Lemma CPU_COMPILE_TIME_REGEXP_denotes (w : string) (c : list string) :
  denotes CPU_COMPILE_TIME_REGEXP w c ->
  exists a1 a2 a3 g ch,
    c = [g] /\
    w = String a1 (String a2 (String a3 ""))
        ++ " compiled and ran in " ++ g ++ "s" ++ String ch "" /\
    all_chars (fun x => negb (Ascii.eqb x newline))
              (String a1 (String a2 (String a3 (g ++ String ch "")))) = true.
Proof.
  unfold CPU_COMPILE_TIME_REGEXP, any; intros H; invert_denotes.
  do 5 eexists; split; [reflexivity | split; [simpl; reflexivity |]].
  simpl; rewrite all_chars_append; simpl.
  repeat match goal with Hb : _ = true |- _ => rewrite Hb; clear Hb end.
  reflexivity.
Qed.

(** X16. Every runner time the host runner reads stands in the log after
    [execution time for runner], a name of letters, a colon and a blank,
    and is followed on the same line by an [s] and one more character;
    every compile time stands after three characters and [ compiled and ran
    in ], likewise followed by an [s] and one more character.  A value whose
    [s] ends the log or its line is not read. *)
Theorem host_pattern_matches (result_text : string) :
  (forall g, In g (findall1 CPU_LATENCY_REGEXP result_text) ->
     exists pre name ch post,
       result_text
       = pre ++ ("execution time for runner " ++ name ++ ": " ++ g ++ "s"
                 ++ String ch "") ++ post /\
       all_chars is_alpha name = true /\
       all_chars (fun x => negb (Ascii.eqb x newline)) (g ++ String ch "") = true) /\
  (forall g, In g (findall1 CPU_COMPILE_TIME_REGEXP result_text) ->
     exists pre a1 a2 a3 ch post,
       result_text
       = pre ++ (String a1 (String a2 (String a3 ""))
                 ++ " compiled and ran in " ++ g ++ "s" ++ String ch "") ++ post /\
       all_chars (fun x => negb (Ascii.eqb x newline))
                 (String a1 (String a2 (String a3 (g ++ String ch "")))) = true).
Proof.
  split; intros g H; apply findall1_sound in H as (w & c & (pre & post & Hs) & Hd & ->).
  - apply CPU_LATENCY_REGEXP_denotes in Hd as (name & g & ch & -> & -> & Hn & Hg).
    exists pre, name, ch, post; splits; assumption.
  - apply CPU_COMPILE_TIME_REGEXP_denotes in Hd as (a1 & a2 & a3 & g & ch & -> & -> & Hg).
    exists pre, a1, a2, a3, ch, post; splits; assumption.
Qed.

Lemma host_pattern_matches_witness :
  exists pre name ch post,
    cpu_log
    = pre ++ ("execution time for runner " ++ name ++ ": " ++ "0.10" ++ "s"
              ++ String ch "") ++ post /\
    all_chars is_alpha name = true /\
    all_chars (fun x => negb (Ascii.eqb x newline)) ("0.10" ++ String ch "") = true.
Proof.
  apply (proj1 (host_pattern_matches cpu_log) "0.10").
  assert (E : findall1 CPU_LATENCY_REGEXP cpu_log = ["0.10"; "0.12"])
    by (vm_compute; reflexivity).
  rewrite E; left; reflexivity.
Defined.

(** A runner time whose [s] ends the log is not read. *)
Example runner_time_at_end_of_log :
  findall1 CPU_LATENCY_REGEXP "execution time for runner x: 0.10s" = [].
Proof. evaluate. Qed.
